(** * Hotpot: request arbitration and the Y-plan valve interlock

    A shallow embedding of the control core of the Hotpot central-heating
    controller:

    - [Thermostat] : the request list of a thermostat, its purge loop, and the
      resolution of the target temperature (server/js/Thermostat.js);
    - [Pin]        : the request list of a pin and [getActiveRequest]
      (the Pin class that keeps requests, whose file binds no [Time]);
    - [Controller] : [setPromise], the interlocked pin transition, run by a
      small model of the event loop, [resetValve] and [pollRules]
      (server/js/Controller);
    - [Historian]  : [record], the polling loop and the serialised history
      (server/js/Historian).

    JavaScript numbers that are only compared are modelled by [Z] (times,
    pin states) and [Q] (temperatures).  Calls to [Utils.TRACE] and
    [Utils.ERROR] are kept as entries appended to a console. *)

From Stdlib Require Import ZArith QArith Lia Bool.
From stdpp Require Import gmap strings list.
From Equations Require Import Equations.

#[local] Open Scope Z_scope.

(** ** JavaScript completions *)

(** What can be thrown.  [TypeError] is what property access on [undefined]
    raises; [ReferenceError] is what reading an identifier that is not
    bound raises; [Error] stands for any other Error object (it has a
    stack); [Thrown] is a thrown value that is not an Error, such as a
    string. *)
Inductive exn : Type :=
| TypeError
| ReferenceError
| Error (msg : string)
| Thrown (msg : string).

(** The outcome of evaluating an expression or calling a function. *)
Inductive completion (A : Type) : Type :=
| Normal (a : A)
| Throw (e : exn).
Arguments Normal {A} a.
Arguments Throw {A} e.

(** [try { body } catch (e) { handler e }] *)
Definition try_catch {A S : Type} (body : completion A) (handler : exn -> A * S) (otherwise : S) : A * S :=
  match body with
  | Normal a => (a, otherwise)
  | Throw e => handler e
  end.

(** [inspect] keeps the equation of a scrutinee for the termination proofs. *)
Definition inspect {A : Type} (a : A) : {b : A | a = b} := exist _ a eq_refl.

(** Removing one element at an index, [reqs.splice(i, 1)]. *)
Definition splice1 {A : Type} (i : nat) (l : list A) : list A :=
  take i l ++ drop (S i) l.

(** ** Thermostat (server/js/Thermostat.js) *)

Module Thermostat.

(** [{ source, target, until }] *)
Record Request : Type := mkRequest {
  source : string;
  target : Q;
  until : Z
}.

(** The timeline of a thermostat, an object of the class of
    common/js/Timeline.  The thermostat reads its [max] field and calls its
    [valueAtTime] method, which returns a value or throws. *)
Record Timeline : Type := mkTimeline {
  tl_max : Q;
  valueAtTime : Z -> completion Q
}.

(** The fields of a Thermostat that the request logic touches. *)
Record t : Type := mkThermostat {
  name : string;
  temperature : Q;
  timeline : Timeline;
  requests : list Request
}.

Definition set_requests (self : t) (reqs : list Request) : t :=
  {| name := name self; temperature := temperature self;
     timeline := timeline self; requests := reqs |}.

(** The readings of the module common/js/Time, [Time.nowSeconds()] and
    [Time.time_of_day()], taken to be the same throughout one call. *)
Record clock : Type := mkClock {
  nowSeconds : Z;
  time_of_day : Z
}.

(** One entry of the [match] object passed to [purgeRequests]: a key and
    the value to compare with.  [ByOther] is a key that is not a field of
    a request. *)
Inductive criterion : Type :=
| ByService (v : string)
| BySource (v : string)
| ByTarget (v : Q)
| ByUntil (v : Z)
| ByOther (k : string).

(** Calls of [Utils.TRACE]. *)
Inductive trace : Type :=
| TracePurge (thermostat : string) (m : list criterion)
| TraceOverTemp
| TraceOld
| TracePurgeRequest (thermostat : string) (r : Request)
| TraceAddRequest (thermostat : string) (r : Request)
| TraceException (e : exn).

(** [k !== "service" && r[k] !== match[k]] *)
Definition mismatch (r : Request) (k : criterion) : bool :=
  match k with
  | ByService _ => false
  | BySource v => negb (String.eqb (source r) v)
  | ByTarget v => negb (Qeq_bool (target r) v)
  | ByUntil v => negb (until r =? v)
  | ByOther _ => true
  end.

(** [for (let k in match) { purge = true; if (...) { purge = false; break; } }] *)
Fixpoint match_loop (r : Request) (m : list criterion) (purge : bool) : bool :=
  match m with
  | [] => purge
  | k :: m' => if mismatch r k then false else match_loop r m' true
  end.

(** [match = match || {}] *)
Definition criteria (m : option (list criterion)) : list criterion :=
  match m with
  | Some c => c
  | None => []
  end.

(** A source is truthy when it is not the empty string. *)
Definition truthy (s : string) : bool := negb (String.eqb s "").

Section WithBoost.

(** [Utils.BOOST], the value of [until] that marks a boost request, a
    constant of common/js/Utils.  Whatever its value, a request is a boost
    request when its [until] equals it. *)
Variable BOOST : Z.

(** The body of the purge loop up to the decision: the flag [purge] and
    what was traced on the way. *)
Definition purge_test (self : t) (m : list criterion) (clk : clock)
    (r : Request) : bool * list trace :=
  let purge := match_loop r m false in
  if until r =? BOOST then
    if Qle_bool (target r) (temperature self)
       || Qle_bool (tl_max (timeline self)) (temperature self)
    then (true, [TraceOverTemp])
    else (purge, [])
  else if until r <? nowSeconds clk then (true, [TraceOld])
  else (purge, []).

(** [for (let i = 0; i < reqs.length; i++) { ...; if (purge) reqs.splice(i--, 1); }]
    After a splice the decrement and the increment of the loop cancel,
    so the next iteration looks at the same index. *)
Equations? purge_loop (self : t) (m : list criterion) (clk : clock)
    (i : nat) (reqs : list Request) (out : list trace)
    : list Request * list trace by wf (length reqs - i)%nat lt :=
  purge_loop self m clk i reqs out with inspect (reqs !! i) := {
    | exist _ None _ => (reqs, out)
    | exist _ (Some r) e =>
        if fst (purge_test self m clk r)
        then purge_loop self m clk i (splice1 i reqs)
               (out ++ snd (purge_test self m clk r)
                    ++ [TracePurgeRequest (name self) r])
        else purge_loop self m clk (S i) reqs
               (out ++ snd (purge_test self m clk r)) }.
Proof.
  - pose proof (lookup_lt_Some _ _ _ e) as Hi. unfold splice1.
    rewrite length_app, length_take, length_drop. lia.
  - pose proof (lookup_lt_Some _ _ _ e) as Hi. lia.
Defined.

(** [purgeRequests(match)] *)
Definition purgeRequests (clk : clock) (m : option (list criterion))
    (self : t) (out : list trace) : t * list trace :=
  let out1 := match m with
              | Some c => out ++ [TracePurge (name self) c]
              | None => out
              end in
  let '(reqs, out2) := purge_loop self (criteria m) clk 0 (requests self) out1 in
  (set_requests self reqs, out2).

(** [addRequest(source, target, until)] *)
Definition addRequest (clk : clock) (src : string) (tgt : Q) (unt : Z)
    (self : t) (out : list trace) : t * list trace :=
  let '(self1, out1) :=
    if truthy src then purgeRequests clk (Some [BySource src]) self out
    else (self, out) in
  let req := {| source := src; target := tgt; until := unt |} in
  (set_requests self1 (requests self1 ++ [req]),
   out1 ++ [TraceAddRequest (name self1) req]).

(** [for (let i = this.requests.length - 1; i >= 0; i--) if (... == Utils.BOOST) return ...target;]
    [n] is [i + 1]. *)
Fixpoint boost_scan (reqs : list Request) (n : nat) : option Q :=
  match n with
  | O => None
  | S i =>
      match reqs !! i with
      | Some r => if until r =? BOOST then Some (target r) else boost_scan reqs i
      | None => boost_scan reqs i
      end
  end.

(** [getTargetTemperature()] *)
Definition getTargetTemperature (clk : clock) (self : t) (out : list trace)
    : completion Q * t * list trace :=
  let '(self1, out1) := purgeRequests clk None self out in
  let reqs := requests self1 in
  if (0 <? length reqs)%nat then
    match boost_scan reqs (length reqs) with
    | Some tgt => (Normal tgt, self1, out1)
    | None =>
        match reqs !! (length reqs - 1)%nat with
        | Some r => (Normal (target r), self1, out1)
        | None => (Throw TypeError, self1, out1)
        end
    end
  else
    let '(v, out2) :=
      try_catch (valueAtTime (timeline self1) (time_of_day clk))
        (fun e => (0%Q, out1 ++ [TraceException e])) out1 in
    (Normal v, self1, out2).

(** [r.until == Utils.BOOST] *)
Definition is_boost (r : Request) : bool := until r =? BOOST.

(** A request stays in the list when the loop body leaves [purge] false. *)
Definition kept (self : t) (m : list criterion) (clk : clock) (r : Request) : bool :=
  negb (fst (purge_test self m clk r)).

(** A sequence of calls of [addRequest], each with the clock readings of
    its time. *)
Fixpoint addRequests (calls : list (clock * string * Q * Z)) (self : t)
    (out : list trace) : t * list trace :=
  match calls with
  | [] => (self, out)
  | (clk, src, tgt, unt) :: rest =>
      let '(self1, out1) := addRequest clk src tgt unt self out in
      addRequests rest self1 out1
  end.

(** The scan of [getMaximumTemperature], from the tail as in
    [getTargetTemperature]; [n] is [i + 1].  [target > max] is the
    negation of [target <= max]. *)
Fixpoint max_scan (reqs : list Request) (n : nat) (max : Q) : Q :=
  match n with
  | O => max
  | S i =>
      match reqs !! i with
      | Some r =>
          if (until r =? BOOST) && negb (Qle_bool (target r) max)
          then max_scan reqs i (target r)
          else max_scan reqs i max
      | None => max_scan reqs i max
      end
  end.

(** [getMaximumTemperature()]; [max_value] is what
    [this.timeline.getMaxValue()] returns.  The requests are not purged
    first. *)
Definition getMaximumTemperature (max_value : Q) (self : t) : Q :=
  if (0 <? length (requests self))%nat
  then max_scan (requests self) (length (requests self)) max_value
  else max_value.

(** The object that [getSerialisableState] resolves to. *)
Record state : Type := mkState {
  st_temperature : Q;
  st_target : completion Q;
  st_requests : list Request
}.

(** [getSerialisableState()]: a purge, then the object literal, whose
    fields are evaluated in order; [getTargetTemperature] purges again, and
    [requests] is read after it. *)
Definition getSerialisableState (clk : clock) (self : t) (out : list trace)
    : state * t * list trace :=
  let '(self1, out1) := purgeRequests clk None self out in
  let temp := temperature self1 in
  let '(tgt, self2, out2) := getTargetTemperature clk self1 out1 in
  ({| st_temperature := temp; st_target := tgt; st_requests := requests self2 |},
   self2, out2).

End WithBoost.

(** *** Polling the sensor *)

(** A thermostat with the two further fields that polling uses:
    [interrupted] and the optional [poll_interval]. *)
Record Poller : Type := mkPoller {
  thermo : t;
  interrupted : bool;
  poll_interval : option Z
}.

(** Calls of [Utils.TRACE] in [poll]. *)
Inductive poll_trace : Type :=
| PollFailed (e : exn)
| PollInterrupted (thermostat : string).

(** [self.poll_interval || DEFAULT_POLL_INTERVAL], in seconds: an
    interval that is undefined or 0 is falsy. *)
Definition interval_or_default (p : option Z) : Z :=
  match p with
  | None | Some 0 => 1
  | Some n => n
  end.

Definition set_temperature (th : t) (temp : Q) : t :=
  {| name := name th; temperature := temp;
     timeline := timeline th; requests := requests th |}.

(** [interrupt()] *)
Definition interrupt (p : Poller) : Poller :=
  {| thermo := thermo p; interrupted := true; poll_interval := poll_interval p |}.

(** One [poll()], for the outcome [reading] of [sensor.getTemperature()],
    up to the end of its [finally] handler.  [interrupt_during] tells
    whether [interrupt()] is called while the sensor is being read.  The
    second component is the delay, in ms, of the timeout armed for the
    next poll, if one is armed. *)
Definition poll (reading : completion Q) (interrupt_during : bool) (p : Poller)
    (out : list poll_trace) : Poller * option Z * list poll_trace :=
  let p0 := if interrupt_during then interrupt p else p in
  let '(p1, out1) :=
    match reading with
    | Normal temp =>
        ({| thermo := set_temperature (thermo p0) temp;
            interrupted := interrupted p0; poll_interval := poll_interval p0 |}, out)
    | Throw e => (p0, out ++ [PollFailed e])
    end in
  if interrupted p1
  then ({| thermo := thermo p1; interrupted := false; poll_interval := poll_interval p1 |},
        None, out1 ++ [PollInterrupted (name (thermo p1))])
  else (p1, Some (1000 * interval_or_default (poll_interval p1)), out1).

(** The polling loop over the successive outcomes of the sensor: each
    timeout that is armed starts the next poll. *)
Fixpoint polls (readings : list (completion Q * bool)) (p : Poller)
    (out : list poll_trace) : Poller * list poll_trace :=
  match readings with
  | [] => (p, out)
  | (reading, interrupt_during) :: rest =>
      let '(p1, timer, out1) := poll reading interrupt_during p out in
      match timer with
      | Some _ => polls rest p1 out1
      | None => (p1, out1)
      end
  end.

(** The readings that the loop gets to: up to and including the first one
    during which [interrupt()] is called. *)
Fixpoint until_interrupt (readings : list (completion Q * bool))
    : list (completion Q * bool) :=
  match readings with
  | [] => []
  | (reading, true) :: _ => [(reading, true)]
  | (reading, false) :: rest => (reading, false) :: until_interrupt rest
  end.

(** The last temperature that was read successfully, or [temp] if none. *)
Fixpoint last_reading (readings : list (completion Q * bool)) (temp : Q) : Q :=
  match readings with
  | [] => temp
  | (Normal v, _) :: rest => last_reading rest v
  | (Throw _, _) :: rest => last_reading rest temp
  end.


(** The number of requests of a source in a list. *)
Definition count_source (s : string) (reqs : list Request) : nat :=
  length (List.filter (fun r => String.eqb (source r) s) reqs).

End Thermostat.


(** ** Pin: the request list (the Pin class that keeps requests) *)

Module Pin.

(** [{ until: epoch ms, state: 2|1|0, source: string }] *)
Record Request : Type := mkRequest {
  until : Z;
  state : Z;
  source : string
}.

Record t : Type := mkPin {
  name : string;
  requests : list Request
}.

Definition set_requests (self : t) (reqs : list Request) : t :=
  {| name := name self; requests := reqs |}.

(** Calls of [console.TRACE]. *)
Inductive trace : Type :=
| TracePurgeRequest (r : Request)
| TraceAddRequest (r : Request).

(** [Time.now()].  The file of this class binds [Fs], [promise],
    [readFile], [writeFile], [Historian] and its own constants, and no
    [Time]; no file of the repository assigns a global of that name (the
    other files bind it with [const] or as a parameter of their module).
    Reading the identifier throws a ReferenceError. *)
Definition Time_now : completion Z := Throw ReferenceError.

(** The first two operands of the condition of the purge loop, for the
    optional arguments [state] and [source]:
    [(typeof source !== "undefined" && r.source === source)
     || (typeof state !== "undefined" && r.state === state)] *)
Definition forced (st : option Z) (src : option string) (r : Request) : bool :=
  match src with Some s => String.eqb (source r) s | None => false end
  || match st with Some v => state r =? v | None => false end.

(** The condition of the purge loop:
    [(typeof source !== "undefined" && r.source === source)
     || (typeof state !== "undefined" && r.state === state)
     || (r.state !== 2 && Time.now() > r.until)].
    The operands are evaluated from the left and only as far as needed:
    [Time.now()] is reached for a request that neither argument matches
    and whose state is not 2. *)
Definition purge_test (st : option Z) (src : option string) (r : Request)
    : completion bool :=
  if forced st src r then Normal true
  else if state r =? 2 then Normal false
  else
    match Time_now with
    | Normal now => Normal (until r <? now)
    | Throw e => Throw e
    end.

(** [for (var i = 0; i < reqs.length;) { if (...) reqs.splice(i, 1); else i++; }]
    The list is spliced in place, so what was removed before an exception
    stays removed. *)
Equations? purge_pin_loop (st : option Z) (src : option string)
    (i : nat) (reqs : list Request) (out : list trace)
    : completion unit * list Request * list trace by wf (length reqs - i)%nat lt :=
  purge_pin_loop st src i reqs out with inspect (reqs !! i) := {
    | exist _ None _ => (Normal tt, reqs, out)
    | exist _ (Some r) e =>
        match purge_test st src r with
        | Normal true =>
            purge_pin_loop st src i (splice1 i reqs) (out ++ [TracePurgeRequest r])
        | Normal false => purge_pin_loop st src (S i) reqs out
        | Throw ex => (Throw ex, reqs, out)
        end }.
Proof.
  - pose proof (lookup_lt_Some _ _ _ e) as Hi. unfold splice1.
    rewrite length_app, length_take, length_drop. lia.
  - pose proof (lookup_lt_Some _ _ _ e) as Hi. lia.
Defined.

(** [purgeRequests(state, source)] *)
Definition purgeRequests (st : option Z) (src : option string)
    (self : t) (out : list trace) : completion unit * t * list trace :=
  let '(res, reqs, out1) := purge_pin_loop st src 0 (requests self) out in
  (res, set_requests self reqs, out1).

(** [addRequest(request)] *)
Definition addRequest (request : Request) (self : t) (out : list trace)
    : completion unit * t * list trace :=
  let '(res, self1, out1) :=
    purgeRequests None (Some (source request)) self
      (out ++ [TraceAddRequest request]) in
  match res with
  | Throw e => (Throw e, self1, out1)
  | Normal _ =>
      if 0 <=? state request
      then (Normal tt, set_requests self1 (requests self1 ++ [request]), out1)
      else (Normal tt, self1, out1)
  end.

(** The loop of [getActiveRequest] over the requests still to be looked
    at; [active_req] is [None] while the variable is [undefined]. *)
Fixpoint active_loop (reqs : list Request) (active_req : option Request)
    : option Request :=
  match reqs with
  | [] => active_req
  | r :: rest =>
      match active_req with
      | None => if state r =? 0 then Some r else active_loop rest (Some r)
      | Some _ => if state r =? 0 then Some r else active_loop rest active_req
      end
  end.

(** [getActiveRequest()]; the result [None] is [undefined]. *)
Definition getActiveRequest (self : t) (out : list trace)
    : completion (option Request) * t * list trace :=
  let '(res, self1, out1) := purgeRequests None None self out in
  match res with
  | Throw e => (Throw e, self1, out1)
  | Normal _ => (Normal (active_loop (requests self1) None), self1, out1)
  end.

(** What [getSerialisableState] returns: [state], and [request] when
    there is an active request. *)
Record serialised : Type := mkSerialised {
  reported_state : Z;
  reported_request : option Request
}.

(** [getSerialisableState()], for the state [cur_state] that [getState()]
    reads from the file of the pin. *)
Definition getSerialisableState (cur_state : Z) (self : t) (out : list trace)
    : completion serialised * t * list trace :=
  let '(res, self1, out1) := purgeRequests None None self out in
  match res with
  | Throw e => (Throw e, self1, out1)
  | Normal _ =>
      let '(ar, self2, out2) := getActiveRequest self1 out1 in
      match ar with
      | Throw e => (Throw e, self2, out2)
      | Normal ar =>
          (Normal {| reported_state := cur_state; reported_request := ar |},
           self2, out2)
      end
  end.

(** The number of requests of a source in a list. *)
Definition count_source (s : string) (reqs : list Request) : nat :=
  length (List.filter (fun r => String.eqb (source r) s) reqs).

End Pin.


(** ** Controller (server/js/Controller) *)

Module Controller.

(** The state of the promise that a rule's test function returns. *)
Inductive promise : Type :=
| Fulfils
| Rejects (e : exn).

(** A rule, an object of the class of server/js/Rule.  [testfn] is [None]
    when [typeof rule.testfn] is not ["function"]; otherwise it maps the
    thermostats and pins it is called with to what the call does: it
    throws, or it returns a promise. *)
Record Rule : Type := mkRule {
  rule_name : string;
  testfn : option (list (string * Thermostat.t) -> gmap string Z -> completion promise)
}.

(** The controller.  [pin] holds, for each configured pin, the state read
    back from the file behind it; [pending] is the flag [self.pending];
    [poll_timer] is [self.poll.timer], the delay of the armed timeout. *)
Record t : Type := mkController {
  pin : gmap string Z;
  pending : bool;
  valve_return : Z;
  rule_interval : Z;
  thermostat : list (string * Thermostat.t);
  rule : list (string * Rule);
  poll_timer : option Z
}.

Definition set_pin (c : t) (p : string) (v : Z) : t :=
  {| pin := <[p := v]> (pin c); pending := pending c;
     valve_return := valve_return c; rule_interval := rule_interval c;
     thermostat := thermostat c; rule := rule c; poll_timer := poll_timer c |}.

Definition set_pending (c : t) (b : bool) : t :=
  {| pin := pin c; pending := b;
     valve_return := valve_return c; rule_interval := rule_interval c;
     thermostat := thermostat c; rule := rule c; poll_timer := poll_timer c |}.

Definition set_poll_timer (c : t) (tm : option Z) : t :=
  {| pin := pin c; pending := pending c;
     valve_return := valve_return c; rule_interval := rule_interval c;
     thermostat := thermostat c; rule := rule c; poll_timer := tm |}.

Definition set_thermostat (c : t) (ths : list (string * Thermostat.t)) : t :=
  {| pin := pin c; pending := pending c;
     valve_return := valve_return c; rule_interval := rule_interval c;
     thermostat := ths; rule := rule c; poll_timer := poll_timer c |}.

(** *** setPromise and the event loop *)

(** What the outside can observe of a run: a write to a pin's file taking
    effect, and a timeout of the given delay elapsing. *)
Inductive event : Type :=
| EvWrite (p : string) (v : Z)
| EvTimer (ms : Z).

(** The value of [this] in a callback.  A handler written
    [function () { ... }] is called by the promise machinery without a
    receiver, and the body of a class is strict code, so [this] is
    [undefined] in it and in the arrow functions it encloses; [self] and
    the arrow functions of a method see the controller. *)
Inductive receiver : Type :=
| ThisUndefined
| ThisController.

(** The receiver of the handlers that the interlock chain passes to
    [.then], all of them written [function () { ... }]. *)
Definition handler_this : receiver := ThisUndefined.

(** [this.valve_return], [self.valve_return] *)
Definition read_valve_return (this : receiver) (c : t) : completion Z :=
  match this with
  | ThisController => Normal (valve_return c)
  | ThisUndefined => Throw TypeError
  end.

(** The [.then] handlers of the interlock chain, in the order of the
    source, and the end of a chain. *)
Inductive callback : Type :=
| ThenSwitchOnHW
| ThenWaitForSpring
| ThenSwitchOffCH
| ThenResolve.

(** Where a call of [setPromise] stands.  Reading and writing a pin's file
    are asynchronous: the operation is issued ([Reading], [Writing]), takes
    effect at a later turn of the event loop, and its handler is queued
    ([GotState], [Queued]). *)
Inductive task : Type :=
| Call (channel : string) (new_state : Z)
| Reading (channel : string) (new_state : Z)
| GotState (channel : string) (new_state cur_state : Z)
| Writing (p : string) (v : Z) (k : callback)
| Queued (k : callback)
| Timer (ms : Z) (next : task)
| Fulfilled
| Rejected (e : exn)
| Threw (e : exn).

Definition settled (tk : task) : bool :=
  match tk with
  | Fulfilled | Rejected _ | Threw _ => true
  | _ => false
  end.

(** The synchronous part of [setPromise(channel, new_state)].  The first
    test of the source compares the pin object with the string
    ["undefined"] and never holds; with the flag set the call is put off
    by [self.valve_return]; [pins[channel].getStatePromise()] throws when
    the channel has no pin. *)
Definition setPromise (c : t) (channel : string) (new_state : Z) : task :=
  if pending c then
    match read_valve_return ThisController c with
    | Normal ms => Timer ms (Call channel new_state)
    | Throw e => Threw e
    end
  else
    match pin c !! channel with
    | Some _ => Reading channel new_state
    | None => Threw TypeError
    end.

(** [.then(function (cur_state) { ... })] *)
Definition on_state (c : t) (channel : string) (new_state cur_state : Z) : task :=
  if cur_state =? new_state then Fulfilled
  else if (cur_state =? 1) && String.eqb channel "CH" && (new_state =? 0) then
    match pin c !! "HW" with
    | None => Rejected TypeError
    | Some hw_state =>
        if hw_state =? 0 then Writing "CH" 0 ThenSwitchOnHW
        else Writing channel new_state ThenResolve
    end
  else Writing channel new_state ThenResolve.

(** The handlers of the interlock chain, called with receiver [this].  The
    one that waits for the spring sets [self.pending] and then builds the
    promise of the timeout, whose executor, an arrow function, reads
    [this.valve_return]; an exception in the executor rejects the promise,
    and with it the chain, so that the handlers after it are skipped. *)
Definition on_callback (this : receiver) (c : t) (k : callback) : t * task :=
  match k with
  | ThenSwitchOnHW => (c, Writing "HW" 1 ThenWaitForSpring)
  | ThenWaitForSpring =>
      let c1 := set_pending c true in
      match read_valve_return this c1 with
      | Normal ms => (c1, Timer ms (Queued ThenSwitchOffCH))
      | Throw e => (c1, Rejected e)
      end
  | ThenSwitchOffCH => (set_pending c false, Writing "CH" 0 ThenResolve)
  | ThenResolve => (c, Fulfilled)
  end.

(** One turn of the event loop given to a task.  [Pin.set] also records
    the write with the pin's historian, which is left out. *)
Definition step (c : t) (tk : task) : t * task * list event :=
  match tk with
  | Call channel new_state => (c, setPromise c channel new_state, [])
  | Reading channel new_state =>
      match pin c !! channel with
      | Some cur_state => (c, GotState channel new_state cur_state, [])
      | None => (c, Rejected (Error "read"), [])
      end
  | GotState channel new_state cur_state =>
      (c, on_state c channel new_state cur_state, [])
  | Writing p v k => (set_pin c p v, Queued k, [EvWrite p v])
  | Queued k => let '(c1, tk1) := on_callback handler_this c k in (c1, tk1, [])
  | Timer ms next => (c, next, [EvTimer ms])
  | Fulfilled | Rejected _ | Threw _ => (c, tk, [])
  end.

(** A call running on its own until it settles or [fuel] turns have passed. *)
Fixpoint run (fuel : nat) (c : t) (tk : task) : t * task * list event :=
  match fuel with
  | O => (c, tk, [])
  | S n =>
      if settled tk then (c, tk, [])
      else
        let '(c1, tk1, evs) := step c tk in
        let '(c2, tk2, evs') := run n c1 tk1 in
        (c2, tk2, evs ++ evs')
  end.

(** The pin writes among the events. *)
Definition writes (evs : list event) : list (string * Z) :=
  omap (fun ev => match ev with EvWrite p v => Some (p, v) | EvTimer _ => None end) evs.

(** Several calls in flight: the controller, the calls by index, and the
    events so far, each with the index of the call it belongs to. *)
Record system : Type := mkSystem {
  ctl : t;
  tasks : list task;
  history : list (nat * event)
}.

(** What the event loop does next: it gives a turn to a call, or a new
    call of [setPromise] arrives. *)
Inductive action : Type :=
| Turn (i : nat)
| Arrive (channel : string) (new_state : Z).

Definition act (a : action) (s : system) : system :=
  match a with
  | Turn i =>
      match tasks s !! i with
      | Some tk =>
          let '(c1, tk1, evs) := step (ctl s) tk in
          {| ctl := c1; tasks := <[i := tk1]> (tasks s);
             history := history s ++ map (pair i) evs |}
      | None => s
      end
  | Arrive channel new_state =>
      {| ctl := ctl s; tasks := tasks s ++ [Call channel new_state];
         history := history s |}
  end.

Fixpoint exec (acts : list action) (s : system) : system :=
  match acts with
  | [] => s
  | a :: rest => exec rest (act a s)
  end.

(** The flag is set before each of the actions. *)
Fixpoint pending_throughout (acts : list action) (s : system) : Prop :=
  match acts with
  | [] => True
  | a :: rest => pending (ctl s) = true /\ pending_throughout rest (act a s)
  end.

(** The pin writes of call [i] in a history. *)
Definition writes_of (i : nat) (h : list (nat * event)) : list (string * Z) :=
  writes (map snd (List.filter (fun e => Nat.eqb (fst e) i) h)).

(** A call that has entered the interlock sequence and has not yet reached
    its last write. *)
Definition in_interlock (tk : task) : bool :=
  match tk with
  | Writing _ _ ThenSwitchOnHW | Queued ThenSwitchOnHW
  | Writing _ _ ThenWaitForSpring | Queued ThenWaitForSpring
  | Timer _ (Queued ThenSwitchOffCH) | Queued ThenSwitchOffCH => true
  | _ => false
  end.

Definition interlocks_in_flight (s : system) : nat :=
  length (List.filter in_interlock (tasks s)).

(** A call that still has the handler that clears the flag ahead of it. *)
Fixpoint clears_flag (tk : task) : bool :=
  match tk with
  | Writing _ _ ThenSwitchOffCH | Queued ThenSwitchOffCH => true
  | Timer _ next => clears_flag next
  | _ => false
  end.

(** *** pollRules *)

(** Calls of [Utils.TRACE] and [Utils.ERROR]. *)
Inductive log : Type :=
| LogTrace (tr : Thermostat.trace)
| LogCannotEvaluate (rule_name : string)
| LogFailedStack (rule_name : string) (e : exn)
| LogFailed (rule_name : string) (e : exn).

(** How the loop over the rules ends: it runs to its end, it leaves the
    function by [return true], or a call throws. *)
Inductive loop_exit : Type :=
| LoopDone
| LoopReturn (v : bool)
| LoopThrow (e : exn).

Section Poll.

Variable BOOST : Z.
Variable clk : Thermostat.clock.

(** [for (let name in self.thermostat) self.thermostat[name].purgeRequests();] *)
Fixpoint purge_all (ths : list (string * Thermostat.t)) (out : list Thermostat.trace)
    : list (string * Thermostat.t) * list Thermostat.trace :=
  match ths with
  | [] => ([], out)
  | (n, th) :: rest =>
      let '(th1, out1) := Thermostat.purgeRequests BOOST clk None th out in
      let '(rest1, out2) := purge_all rest out1 in
      ((n, th1) :: rest1, out2)
  end.

(** The loop over the rules.  [called] collects, for each rule whose test
    function was called and returned, the promise it returned, to which
    the [.catch] handler is attached. *)
Fixpoint rule_loop (c : t) (rules : list (string * Rule))
    (called : list (string * promise)) (out : list log)
    : loop_exit * list (string * promise) * list log :=
  match rules with
  | [] => (LoopDone, called, out)
  | (_, r) :: rest =>
      match testfn r with
      | None => (LoopReturn true, called, out ++ [LogCannotEvaluate (rule_name r)])
      | Some fn =>
          match fn (thermostat c) (pin c) with
          | Throw e => (LoopThrow e, called, out)
          | Normal p => rule_loop c rest (called ++ [(rule_name r, p)]) out
          end
      end
  end.

(** A rule whose test function is a function that, whatever it is called
    with, returns a promise. *)
Definition returns_promise (r : Rule) : Prop :=
  exists fn, testfn r = Some fn /\ forall ths pins, exists p, fn ths pins = Normal p.

(** The names of the rules of a list, in order. *)
Definition names (rules : list (string * Rule)) : list string :=
  map (fun nr => rule_name (snd nr)) rules.

(** The result of one call of [pollRules]: how it completed, the
    controller it leaves, the promises of the rules it called, and the
    console. *)
Record tick : Type := mkTick {
  completed : completion (option bool);
  after : t;
  called : list (string * promise);
  console : list log
}.

(** [pollRules()] *)
Definition pollRules (c : t) (out : list log) : tick :=
  let c1 := match poll_timer c with
            | Some _ => set_poll_timer c None
            | None => c
            end in
  let '(ths, traced) := purge_all (thermostat c1) [] in
  let c2 := set_thermostat c1 ths in
  let out1 := out ++ map LogTrace traced in
  match rule_loop c2 (rule c2) [] out1 with
  | (LoopDone, ps, out2) =>
      {| completed := Normal None;
         after := set_poll_timer c2 (Some (rule_interval c2));
         called := ps; console := out2 |}
  | (LoopReturn v, ps, out2) =>
      {| completed := Normal (Some v); after := c2; called := ps; console := out2 |}
  | (LoopThrow e, ps, out2) =>
      {| completed := Throw e; after := c2; called := ps; console := out2 |}
  end.

(** An Error object has a [stack]; other thrown values do not. *)
Definition has_stack (e : exn) : bool :=
  match e with
  | Thrown _ => false
  | _ => true
  end.

(** The [.catch] handlers of the promises of a tick, run once the promises
    have settled. *)
Fixpoint catch_handlers (ps : list (string * promise)) (out : list log) : list log :=
  match ps with
  | [] => out
  | (_, Fulfils) :: rest => catch_handlers rest out
  | (n, Rejects e) :: rest =>
      catch_handlers rest
        (out ++ (if has_stack e then [LogFailedStack n e] else []) ++ [LogFailed n e])
  end.

End Poll.

(** *** resetValve *)

(** Calls of [Utils.TRACE] and [Utils.ERROR] in [resetValve]. *)
Inductive reset_log : Type :=
| ResetTrace (msg : string)
| ResetFailed (e : exn).

(** The handlers that [resetValve] passes to [.then], in the order of the
    source. *)
Inductive reset_callback : Type :=
| AfterHWOn
| AfterDelay
| AfterCHOff
| AfterHWOff.

(** Where a call of [resetValve] stands.  [ResetCaught] is the chain
    rejected, with the handler of [.catch] queued. *)
Inductive reset_task : Type :=
| ResetCall
| ResetWriting (p : string) (v : Z) (k : reset_callback)
| ResetQueued (k : reset_callback)
| ResetTimer (ms : Z) (k : reset_callback)
| ResetCaught (e : exn)
| ResetFulfilled
| ResetThrew (e : exn).

Definition reset_settled (tk : reset_task) : bool :=
  match tk with
  | ResetFulfilled | ResetThrew _ => true
  | _ => false
  end.

(** [pins.X.set(v, "Reset")], which throws a TypeError when there is no
    pin [X]. *)
Definition reset_set (c : t) (p : string) (v : Z) (k : reset_callback)
    : completion reset_task :=
  match pin c !! p with
  | Some _ => Normal (ResetWriting p v k)
  | None => Throw TypeError
  end.

(** The handlers of the chain.  The first is written [function () { ... }]
    and is called with receiver [this]; the others are arrow functions
    that do not use [this].  An exception in a handler rejects the
    chain. *)
Definition on_reset (this : receiver) (c : t) (k : reset_callback)
    : reset_task * list reset_log :=
  match k with
  | AfterHWOn =>
      (match read_valve_return this c with
       | Normal ms => ResetTimer ms AfterDelay
       | Throw e => ResetCaught e
       end, [ResetTrace "Reset: HW(1) done"])
  | AfterDelay =>
      (match reset_set c "CH" 0 AfterCHOff with
       | Normal tk => tk
       | Throw e => ResetCaught e
       end, [ResetTrace "Reset: delay done"])
  | AfterCHOff =>
      (match reset_set c "HW" 0 AfterHWOff with
       | Normal tk => tk
       | Throw e => ResetCaught e
       end, [ResetTrace "Reset: CH(0) done"])
  | AfterHWOff => (ResetFulfilled, [ResetTrace "Valve reset"])
  end.

(** One turn of the event loop given to [resetValve], whose handlers are
    called with receiver [this]. *)
Definition reset_step (this : receiver) (c : t) (tk : reset_task)
    : t * reset_task * list event * list reset_log :=
  match tk with
  | ResetCall =>
      (c,
       match reset_set c "HW" 1 AfterHWOn with
       | Normal tk1 => tk1
       | Throw e => ResetThrew e
       end, [], [ResetTrace "Resetting valve"])
  | ResetWriting p v k => (set_pin c p v, ResetQueued k, [EvWrite p v], [])
  | ResetQueued k => let '(tk1, out) := on_reset this c k in (c, tk1, [], out)
  | ResetTimer ms k => (c, ResetQueued k, [EvTimer ms], [])
  | ResetCaught e => (c, ResetFulfilled, [], [ResetFailed e])
  | ResetFulfilled | ResetThrew _ => (c, tk, [], [])
  end.

Fixpoint reset_run (this : receiver) (fuel : nat) (c : t) (tk : reset_task)
    : t * reset_task * list event * list reset_log :=
  match fuel with
  | O => (c, tk, [], [])
  | S n =>
      if reset_settled tk then (c, tk, [], [])
      else
        let '(c1, tk1, evs, out) := reset_step this c tk in
        let '(c2, tk2, evs', out') := reset_run this n c1 tk1 in
        (c2, tk2, evs ++ evs', out ++ out')
  end.

(** [resetValve()], run to its end. *)
Definition resetValve (fuel : nat) (c : t)
    : t * reset_task * list event * list reset_log :=
  reset_run handler_this fuel c ResetCall.

End Controller.


(** ** Historian (server/js/Historian) *)

Module Historian.

(** A line of the history file, [time + "," + sample + "\n"], kept as its
    two numbers. *)
Definition line : Type := (Z * Q)%type.

(** The historian.  [interval] is [None] when it is not configured;
    [timeout] tells whether [this.timeout] holds a timer rather than
    [null]; [last] holds [last_time] and [last_sample], which are only
    ever assigned together; [sampler] tells whether [this.sampler] has
    been assigned. *)
Record t : Type := mkHistorian {
  name : string;
  interval : option Z;
  timeout : bool;
  last : option (Z * Q);
  sampler : bool
}.

Definition set_last (h : t) (l : option (Z * Q)) : t :=
  {| name := name h; interval := interval h; timeout := timeout h;
     last := l; sampler := sampler h |}.

Definition set_timeout (h : t) (b : bool) : t :=
  {| name := name h; interval := interval h; timeout := b;
     last := last h; sampler := sampler h |}.

Definition set_sampler (h : t) (b : bool) : t :=
  {| name := name h; interval := interval h; timeout := timeout h;
     last := last h; sampler := b |}.

(** Calls of [setTimeout], with the delay passed, and of [clearTimeout]. *)
Inductive timer_call : Type :=
| SetTimeout (delay : option Z)
| ClearTimeout.

(** Calls of [Utils.TRACE] and [Utils.ERROR]. *)
Inductive log : Type :=
| LogAppendFailed (e : exn)
| LogStopped (historian : string).

(** [typeof this.last_time !== "undefined" &&
     time > this.last_time + 5 * this.interval / 4];
    with [interval] undefined the right-hand side is NaN and the test
    fails. *)
Definition gap_exceeded (h : t) (time : Z) : bool :=
  match last h, interval h with
  | Some (last_time, _), Some i =>
      negb (Qle_bool (inject_Z time) (inject_Z last_time + 5 * inject_Z i / 4))
  | _, _ => false
  end.

(** The checkpoint line [(time - this.interval) + "," + this.last_sample]. *)
Definition checkpoint (h : t) (time : Z) : option line :=
  match last h, interval h with
  | Some (_, last_sample), Some i =>
      if gap_exceeded h time then Some (time - i, last_sample) else None
  | _, _ => None
  end.

(** [record(sample, time)] on the file [file].  [now] is the reading of
    [Time.now()], used when [time] is not given; [checkpoint_io] and
    [sample_io] are the errors, if any, with which the two calls of
    [Fs.appendFile] fail.  The last sample is set before anything is
    written; a failure of the first append rejects the promise and the
    second is then not made; a failure of the second is caught and
    logged. *)
Definition record (checkpoint_io sample_io : option exn) (now : Z)
    (sample : Q) (time : option Z) (h : t) (file : list line) (out : list log)
    : Controller.promise * t * list line * list log :=
  let time := match time with Some tm => tm | None => now end in
  let cp := checkpoint h time in
  let h1 := set_last h (Some (time, sample)) in
  let after_checkpoint :=
    match cp with
    | Some l =>
        match checkpoint_io with
        | Some e => Throw e
        | None => Normal (file ++ [l])
        end
    | None => Normal file
    end in
  match after_checkpoint with
  | Throw e => (Controller.Rejects e, h1, file, out)
  | Normal file1 =>
      match sample_io with
      | None => (Controller.Fulfils, h1, file1 ++ [(time, sample)], out)
      | Some e => (Controller.Fulfils, h1, file1, out ++ [LogAppendFailed e])
      end
  end.

(** [datum !== this.last_sample] *)
Definition differs (datum : Q) (h : t) : bool :=
  match last h with
  | Some (_, last_sample) => negb (Qeq_bool datum last_sample)
  | None => true
  end.

(** [_poll()], for the value [datum] that the sampler returns, [None]
    when it is not a number (a sampler that returns NaN is not covered).  The timeout is armed again when the promise
    of the record is fulfilled and [this.timeout] is still set. *)
Definition _poll (checkpoint_io sample_io : option exn) (now : Z)
    (datum : option Q) (h : t) (file : list line) (out : list log)
    : t * list line * list timer_call * list log :=
  let '(p, h1, file1, out1) :=
    match datum with
    | Some d =>
        if differs d h
        then record checkpoint_io sample_io now d None h file out
        else (Controller.Fulfils, h, file, out)
    | None => (Controller.Fulfils, h, file, out)
    end in
  match p with
  | Controller.Fulfils =>
      if timeout h1
      then (set_timeout h1 true, file1, [SetTimeout (interval h1)], out1)
      else (h1, file1, [], out1)
  | Controller.Rejects _ => (h1, file1, [], out1)
  end.

(** [start(sample)]; [is_function] tells whether [typeof sample] is
    ["function"]. *)
Definition start (is_function : bool) (h : t)
    : completion unit * t * list timer_call :=
  if negb is_function
  then (Throw (Error "Cannot start; sample not a function"), h, [])
  else
    let h1 := set_sampler h true in
    match interval h1 with
    | None => (Throw (Error "Cannot start; interval not defined"), h1, [])
    | Some _ => (Normal tt, set_timeout h1 true, [SetTimeout (Some 100)])
    end.

(** [stop()] *)
Definition stop (h : t) (out : list log) : t * list timer_call * list log :=
  if timeout h
  then (set_timeout h false, [ClearTimeout], out ++ [LogStopped (name h)])
  else (h, [], out).

(** [typeof since === "undefined" || report[i].time >= since] *)
Definition wanted (since : option Z) (time : Z) : bool :=
  match since with
  | None => true
  | Some s => s <=? time
  end.

(** The loop of [getSerialisableHistory] over the report. *)
Fixpoint history_loop (since : option Z) (basetime : Z) (report : list line)
    (res : list Q) : list Q :=
  match report with
  | [] => res
  | (time, sample) :: rest =>
      history_loop since basetime rest
        (if wanted since time
         then res ++ [inject_Z (time - basetime); sample]
         else res)
  end.

(** [getSerialisableHistory(since)], for the report that [loadFromFile]
    resolves to and the reading [now] of [Time.now()]. *)
Definition getSerialisableHistory (since : option Z) (now : Z)
    (report : list line) : list Q :=
  let basetime := match report with
                  | (time, _) :: _ => time
                  | [] => now
                  end in
  history_loop since basetime report [inject_Z basetime].

(** A sequence of calls of [record] whose appends all succeed, each with
    its sample and its time. *)
Fixpoint records (calls : list (Q * Z)) (h : t) (file : list line)
    : t * list line :=
  match calls with
  | [] => (h, file)
  | (sample, time) :: rest =>
      let '(_, h1, file1, _) := record None None time sample (Some time) h file [] in
      records rest h1 file1
  end.

(** The times of a sequence of calls increase, starting above [from] when
    there is one. *)
Fixpoint increasing (from : option Z) (calls : list (Q * Z)) : Prop :=
  match calls with
  | [] => True
  | (_, time) :: rest =>
      match from with Some f => f < time | None => True end
      /\ increasing (Some time) rest
  end.

(** The lines of a file are in the order of their times, without repeats. *)
Definition sorted_by_time (file : list line) : Prop :=
  forall i j a b,
    (i < j)%nat -> file !! i = Some a -> file !! j = Some b -> fst a < fst b.

(** The file is sorted and the historian remembers a time that no line of
    the file exceeds; a historian that remembers nothing has an empty
    file. *)
Definition tracks (h : t) (file : list line) : Prop :=
  sorted_by_time file
  /\ match last h with
     | Some (last_time, _) => forall l, In l file -> fst l <= last_time
     | None => file = []
     end.

End Historian.


(** ** Example inputs *)

Module Scenario.

(** A value for [Utils.BOOST] in the examples. *)
Definition boost_mark : Z := -274.

Definition clk0 : Thermostat.clock :=
  {| Thermostat.nowSeconds := 1000; Thermostat.time_of_day := 21600 |}.

Definition timeline0 : Thermostat.Timeline :=
  {| Thermostat.tl_max := 50%Q;
     Thermostat.valueAtTime := fun _ => Normal 15%Q |}.

(** A timeline whose [valueAtTime] throws. *)
Definition timeline_broken : Thermostat.Timeline :=
  {| Thermostat.tl_max := 50%Q;
     Thermostat.valueAtTime := fun _ => Throw (Error "valueAtTime") |}.

Definition req_old : Thermostat.Request :=
  {| Thermostat.source := "calendar"; Thermostat.target := 18%Q; Thermostat.until := 900 |}.

Definition req_live : Thermostat.Request :=
  {| Thermostat.source := "browser"; Thermostat.target := 21%Q; Thermostat.until := 5000 |}.

Definition req_boost : Thermostat.Request :=
  {| Thermostat.source := "A"; Thermostat.target := 45%Q; Thermostat.until := boost_mark |}.

Definition thermostat_of (tl : Thermostat.Timeline) (reqs : list Thermostat.Request)
    : Thermostat.t :=
  {| Thermostat.name := "HW"; Thermostat.temperature := 20%Q;
     Thermostat.timeline := tl; Thermostat.requests := reqs |}.

(** Requests of a pin: on until 5000, boost, off until 3000. *)
Definition pin_on : Pin.Request :=
  {| Pin.until := 5000; Pin.state := 1; Pin.source := "browser" |}.

Definition pin_boost : Pin.Request :=
  {| Pin.until := 0; Pin.state := 2; Pin.source := "mobile" |}.

Definition pin_off : Pin.Request :=
  {| Pin.until := 3000; Pin.state := 0; Pin.source := "calendar" |}.

Definition pin_of (reqs : list Pin.Request) : Pin.t :=
  {| Pin.name := "HW"; Pin.requests := reqs |}.

(** A controller with pins CH and HW in the given states. *)
Definition controller_of (ch hw : Z) (flag : bool)
    (rules : list (string * Controller.Rule)) : Controller.t :=
  {| Controller.pin := <["CH" := ch]> (<["HW" := hw]> ∅);
     Controller.pending := flag;
     Controller.valve_return := 8000;
     Controller.rule_interval := 5000;
     Controller.thermostat := [("HW", thermostat_of timeline0 [req_old; req_live])];
     Controller.rule := rules;
     Controller.poll_timer := Some 5000 |}.

(** An idle controller with the heating on and the hot water off, and no
    call yet. *)
Definition idle : Controller.system :=
  {| Controller.ctl := controller_of 1 0 false [];
     Controller.tasks := [];
     Controller.history := [] |}.

(** Two calls [setPromise("CH", 0)] arrive together and take turns until
    each has decided what to write. *)
Definition race : list Controller.action :=
  [ Controller.Arrive "CH" 0; Controller.Arrive "CH" 0;
    Controller.Turn 0; Controller.Turn 1;
    Controller.Turn 0; Controller.Turn 1;
    Controller.Turn 0; Controller.Turn 1 ].

(** A call that arrived while the flag is set. *)
Definition held : Controller.system :=
  {| Controller.ctl := controller_of 0 1 true [];
     Controller.tasks := [Controller.Call "HW" 0];
     Controller.history := [] |}.

(** Rules: one that cannot be evaluated, one whose function throws, one
    whose promise is rejected, one whose promise is fulfilled. *)
Definition rule_unevaluable (n : string) : Controller.Rule :=
  {| Controller.rule_name := n; Controller.testfn := None |}.

Definition rule_throwing (n : string) : Controller.Rule :=
  {| Controller.rule_name := n;
     Controller.testfn := Some (fun _ _ => Throw TypeError) |}.

Definition rule_rejecting (n : string) : Controller.Rule :=
  {| Controller.rule_name := n;
     Controller.testfn := Some (fun _ _ => Normal (Controller.Rejects (Error "rule"))) |}.

Definition rule_ok (n : string) : Controller.Rule :=
  {| Controller.rule_name := n;
     Controller.testfn := Some (fun _ _ => Normal Controller.Fulfils) |}.

(** A poller for the thermostat, not interrupted. *)
Definition poller0 : Thermostat.Poller :=
  {| Thermostat.thermo := thermostat_of timeline0 [req_live];
     Thermostat.interrupted := false;
     Thermostat.poll_interval := None |}.

(** Outcomes of the sensor: a reading, a failure, a reading during which
    the polling is interrupted, and one that is never made. *)
Definition readings0 : list (completion Q * bool) :=
  [ (Normal 21%Q, false); (Throw (Error "sensor"), false);
    (Normal 22%Q, true); (Normal 30%Q, false) ].

(** A historian that samples every 300 ms and has recorded nothing yet. *)
Definition historian0 : Historian.t :=
  {| Historian.name := "HW"; Historian.interval := Some 300;
     Historian.timeout := false; Historian.last := None;
     Historian.sampler := false |}.

(** Samples recorded at 1000, at 1300 and, after a gap, at 5000. *)
Definition samples0 : list (Q * Z) :=
  [ (20%Q, 1000); (21%Q, 1300); ((43 # 2)%Q, 5000) ].

End Scenario.

(** * Properties *)

(** ** The model at work *)

Example purgeRequests_drops_expired :
  Thermostat.requests
    (fst (Thermostat.purgeRequests Scenario.boost_mark Scenario.clk0 None
            (Scenario.thermostat_of Scenario.timeline0
               [Scenario.req_old; Scenario.req_live; Scenario.req_boost]) []))
  = [Scenario.req_live; Scenario.req_boost].
Proof. reflexivity. Qed.

Example purgeRequests_by_source_traces :
  snd (Thermostat.purgeRequests Scenario.boost_mark Scenario.clk0
         (Some [Thermostat.BySource "browser"])
         (Scenario.thermostat_of Scenario.timeline0
            [Scenario.req_old; Scenario.req_live]) [])
  = [ Thermostat.TracePurge "HW" [Thermostat.BySource "browser"];
      Thermostat.TraceOld;
      Thermostat.TracePurgeRequest "HW" Scenario.req_old;
      Thermostat.TracePurgeRequest "HW" Scenario.req_live ].
Proof. reflexivity. Qed.

Example getTargetTemperature_from_timeline :
  fst (fst (Thermostat.getTargetTemperature Scenario.boost_mark Scenario.clk0
              (Scenario.thermostat_of Scenario.timeline0 [Scenario.req_old]) []))
  = Normal 15%Q.
Proof. reflexivity. Qed.

Example getActiveRequest_first_request :
  fst (fst (Pin.getActiveRequest
              (Scenario.pin_of [Scenario.pin_boost; Scenario.pin_boost]) []))
  = Normal (Some Scenario.pin_boost).
Proof. reflexivity. Qed.

Example getActiveRequest_reads_Time :
  fst (fst (Pin.getActiveRequest
              (Scenario.pin_of [Scenario.pin_on; Scenario.pin_off]) []))
  = Throw ReferenceError.
Proof. reflexivity. Qed.

Example setPromise_already_there :
  Controller.run 10 (Scenario.controller_of 1 0 false []) (Controller.Call "CH" 1)
  = (Scenario.controller_of 1 0 false [], Controller.Fulfilled, []).
Proof. vm_compute. reflexivity. Qed.

Example setPromise_hot_water_on :
  snd (Controller.run 10 (Scenario.controller_of 0 0 false []) (Controller.Call "HW" 1))
  = [Controller.EvWrite "HW" 1].
Proof. vm_compute. reflexivity. Qed.

Example setPromise_unknown_channel :
  snd (fst (Controller.run 10 (Scenario.controller_of 0 0 false [])
              (Controller.Call "XX" 1)))
  = Controller.Threw TypeError.
Proof. vm_compute. reflexivity. Qed.

Example pollRules_rejection_logged :
  let tk := Controller.pollRules Scenario.boost_mark Scenario.clk0
              (Scenario.controller_of 1 0 false
                 [("HW", Scenario.rule_rejecting "HW"); ("CH", Scenario.rule_ok "CH")])
              [] in
  map fst (Controller.called tk) = ["HW"; "CH"]
  /\ Controller.poll_timer (Controller.after tk) = Some 5000
  /\ Controller.catch_handlers (Controller.called tk) []
     = [ Controller.LogFailedStack "HW" (Error "rule");
         Controller.LogFailed "HW" (Error "rule") ].
Proof. vm_compute. auto. Qed.

Example pollRules_throw_escapes :
  let tk := Controller.pollRules Scenario.boost_mark Scenario.clk0
              (Scenario.controller_of 1 0 false
                 [("HW", Scenario.rule_throwing "HW"); ("CH", Scenario.rule_ok "CH")])
              [] in
  Controller.completed tk = Throw TypeError
  /\ Controller.called tk = []
  /\ Controller.poll_timer (Controller.after tk) = None.
Proof. vm_compute. auto. Qed.

(** ** Lists *)

Lemma splice1_take {A : Type} (i : nat) (l : list A) :
  take i (splice1 i l) = take i l.
Proof.
  unfold splice1.
  destruct (decide (i <= length l)%nat) as [Hle|Hgt].
  - rewrite take_app_le by (rewrite length_take; lia).
    rewrite take_take. f_equal. lia.
  - rewrite (take_ge l i) by lia. rewrite (drop_ge l (S i)) by lia.
    rewrite app_nil_r. apply take_ge. lia.
Qed.

Lemma splice1_drop {A : Type} (i : nat) (l : list A) :
  drop i (splice1 i l) = drop (S i) l.
Proof.
  unfold splice1.
  destruct (decide (i <= length l)%nat) as [Hle|Hgt].
  - rewrite drop_app_ge by (rewrite length_take; lia).
    rewrite length_take. replace (i - i `min` length l)%nat with 0%nat by lia.
    reflexivity.
  - rewrite (take_ge l i) by lia. rewrite (drop_ge l (S i)) by lia.
    rewrite app_nil_r. apply drop_ge. lia.
Qed.

(** ** Thermostat *)

Section ThermostatFacts.

Import Thermostat.

Variable BOOST : Z.

Lemma purge_loop_requests self m clk i reqs out :
  fst (purge_loop BOOST self m clk i reqs out)
  = take i reqs ++ List.filter (kept BOOST self m clk) (drop i reqs).
Proof.
  funelim (purge_loop BOOST self m clk i reqs out).
  - rewrite (drop_S _ _ _ e). cbn [List.filter]. unfold kept at 1.
    destruct (fst (purge_test BOOST self m clk r)) eqn:Hp; cbn [negb].
    + rewrite H, splice1_take, splice1_drop. reflexivity.
    + rewrite H0, (take_S_r _ _ _ e), <- app_assoc. reflexivity.
  - assert (Hn : reqs !! i = None) by assumption.
    apply lookup_ge_None in Hn.
    rewrite take_ge, drop_ge by lia. cbn. rewrite app_nil_r. reflexivity.
Qed.

Lemma purgeRequests_requests clk m self out :
  requests (fst (purgeRequests BOOST clk m self out))
  = List.filter (kept BOOST self (criteria m) clk) (requests self).
Proof.
  unfold purgeRequests.
  match goal with |- context [purge_loop ?b ?s ?c ?k ?i ?l ?o] =>
    pose proof (purge_loop_requests s c k i l o) as Hl;
    destruct (purge_loop b s c k i l o) as [reqs out2] end.
  cbn in *. rewrite Hl. rewrite drop_0. reflexivity.
Qed.

Lemma purgeRequests_fields clk m self out :
  let self' := fst (purgeRequests BOOST clk m self out) in
  name self' = name self /\ temperature self' = temperature self
  /\ timeline self' = timeline self.
Proof.
  unfold purgeRequests.
  destruct (purge_loop _ _ _ _ _ _ _) as [reqs out2]. cbn. auto.
Qed.


Lemma kept_no_criteria self clk r :
  kept BOOST self [] clk r
  = if until r =? BOOST
    then negb (Qle_bool (target r) (temperature self)
               || Qle_bool (tl_max (timeline self)) (temperature self))
    else negb (until r <? nowSeconds clk).
Proof.
  unfold kept, purge_test. cbn [match_loop].
  destruct (until r =? BOOST).
  - destruct (Qle_bool _ _ || Qle_bool _ _); reflexivity.
  - destruct (until r <? nowSeconds clk); reflexivity.
Qed.

Lemma kept_boost self m clk r :
  until r = BOOST ->
  kept BOOST self m clk r
  = negb (match_loop r m false
          || Qle_bool (target r) (temperature self)
          || Qle_bool (tl_max (timeline self)) (temperature self)).
Proof.
  intros Hb. unfold kept, purge_test.
  rewrite Hb, Z.eqb_refl.
  destruct (Qle_bool (target r) (temperature self));
    destruct (Qle_bool (tl_max (timeline self)) (temperature self));
    destruct (match_loop r m false); reflexivity.
Qed.

(** C4: after [purgeRequests] called without match criteria (with no
    argument, or with an empty object) no remaining request with a
    concrete [until] has that [until] before the current time, and every
    request with a concrete [until] that is not before the current time is
    still in the list. *)
Theorem purgeRequests_expiry clk m self out :
  criteria m = [] ->
  let self' := fst (purgeRequests BOOST clk m self out) in
  (forall r, In r (requests self') -> until r <> BOOST ->
             ~ (until r < nowSeconds clk))
  /\ (forall r, In r (requests self) -> until r <> BOOST ->
                ~ (until r < nowSeconds clk) -> In r (requests self')).
Proof.
  intros Hm. cbn zeta. rewrite purgeRequests_requests, Hm. split.
  - intros r Hin Hnb. apply filter_In in Hin as [_ Hk].
    rewrite kept_no_criteria in Hk.
    destruct (Z.eqb_spec (until r) BOOST) as [Heq|_]; [contradiction|].
    destruct (Z.ltb_spec (until r) (nowSeconds clk)); [discriminate|lia].
  - intros r Hin Hnb Hlive. apply filter_In. split; [exact Hin|].
    rewrite kept_no_criteria.
    destruct (Z.eqb_spec (until r) BOOST) as [Heq|_]; [contradiction|].
    destruct (Z.ltb_spec (until r) (nowSeconds clk)); [lia|reflexivity].
Qed.

(** C5, as amended: a boost request is removed by [purgeRequests] exactly
    when the match criteria of the call match it, or the temperature has
    reached its target, or the temperature has reached the maximum of the
    timeline; whether it is removed does not depend on the time. *)
Theorem boost_request_purged clk clk' m self out r :
  In r (requests self) -> until r = BOOST ->
  (~ In r (requests (fst (purgeRequests BOOST clk m self out)))
   <-> (match_loop r (criteria m) false = true
        \/ (target r <= temperature self)%Q
        \/ (tl_max (timeline self) <= temperature self)%Q))
  /\ (In r (requests (fst (purgeRequests BOOST clk m self out)))
      <-> In r (requests (fst (purgeRequests BOOST clk' m self out)))).
Proof.
  intros Hin Hb. rewrite !purgeRequests_requests, !filter_In.
  rewrite !(kept_boost _ _ _ _ Hb). rewrite <- !Qle_bool_iff.
  destruct (match_loop r (criteria m) false);
    destruct (Qle_bool (target r) (temperature self));
    destruct (Qle_bool (tl_max (timeline self)) (temperature self));
    cbn; intuition congruence.
Qed.

(** *** One request per source *)

Lemma count_source_app s l1 l2 :
  count_source s (l1 ++ l2) = (count_source s l1 + count_source s l2)%nat.
Proof. unfold count_source. rewrite List.filter_app, length_app. reflexivity. Qed.

Lemma count_source_filter_le s f l :
  (count_source s (List.filter f l) <= count_source s l)%nat.
Proof.
  unfold count_source. induction l as [|r l IH]; cbn; [lia|].
  destruct (f r); cbn; destruct (String.eqb (source r) s); cbn; lia.
Qed.

Lemma kept_by_source self clk src r :
  kept BOOST self [BySource src] clk r = true -> String.eqb (source r) src = false.
Proof.
  unfold kept, purge_test. cbn [match_loop mismatch].
  destruct (String.eqb (source r) src); [|reflexivity]. cbn.
  destruct (until r =? BOOST).
  - destruct (Qle_bool _ _ || Qle_bool _ _); cbn; congruence.
  - destruct (until r <? nowSeconds clk); cbn; congruence.
Qed.

Lemma count_source_purged self clk src l :
  count_source src (List.filter (kept BOOST self [BySource src] clk) l) = 0%nat.
Proof.
  unfold count_source. induction l as [|r l IH]; cbn; [reflexivity|].
  destruct (kept BOOST self [BySource src] clk r) eqn:Hk; [|exact IH].
  cbn. rewrite (kept_by_source _ _ _ _ Hk). exact IH.
Qed.

Lemma truthy_spec s : truthy s = true <-> s <> "".
Proof.
  unfold truthy. destruct (String.eqb_spec s ""); cbn; split; congruence.
Qed.

Lemma addRequest_requests clk src tgt unt self out :
  requests (fst (addRequest BOOST clk src tgt unt self out))
  = (if truthy src
     then List.filter (kept BOOST self [BySource src] clk) (requests self)
     else requests self)
    ++ [{| source := src; target := tgt; until := unt |}].
Proof.
  unfold addRequest. destruct (truthy src).
  - pose proof (purgeRequests_requests clk (Some [BySource src]) self out) as Hp.
    destruct (purgeRequests BOOST clk (Some [BySource src]) self out) as [self1 out1].
    cbn in *. rewrite Hp. reflexivity.
  - reflexivity.
Qed.

Lemma count_source_singleton s src tgt unt :
  count_source s [{| source := src; target := tgt; until := unt |}]
  = if String.eqb src s then 1%nat else 0%nat.
Proof. unfold count_source. cbn. destruct (String.eqb src s); reflexivity. Qed.

(** C6, as amended: for a source other than the empty string,
    [addRequest] purges the requests of that source and appends the new
    one, so the list then holds exactly one request of that source; and
    any sequence of calls of [addRequest] keeps at most one request for
    each source other than the empty string. *)
Theorem addRequest_one_per_source :
  (forall clk src tgt unt self out,
      src <> "" ->
      count_source src (requests (fst (addRequest BOOST clk src tgt unt self out)))
      = 1%nat)
  /\ (forall calls self out,
         (forall s, s <> "" -> (count_source s (requests self) <= 1)%nat) ->
         forall s, s <> "" ->
           (count_source s (requests (fst (addRequests BOOST calls self out))) <= 1)%nat).
Proof.
  assert (Hone : forall clk src tgt unt self out,
             src <> "" ->
             count_source src
               (requests (fst (addRequest BOOST clk src tgt unt self out))) = 1%nat).
  { intros clk src tgt unt self out Hsrc.
    rewrite addRequest_requests, count_source_app, count_source_singleton.
    apply truthy_spec in Hsrc. rewrite Hsrc, String.eqb_refl.
    rewrite count_source_purged. reflexivity. }
  split; [exact Hone|].
  induction calls as [|[[[clk src] tgt] unt] calls IH]; intros self out Hinv s Hs.
  - cbn. apply Hinv, Hs.
  - cbn [addRequests].
    pose proof (addRequest_requests clk src tgt unt self out) as Hreq.
    pose proof (Hone clk src tgt unt self out) as Hsame.
    destruct (addRequest BOOST clk src tgt unt self out) as [self1 out1].
    cbn [fst] in *. apply IH; [|exact Hs].
    intros s' Hs'. destruct (String.eqb_spec src s') as [->|Hne].
    + rewrite (Hsame Hs'). lia.
    + rewrite Hreq, count_source_app, count_source_singleton.
      destruct (String.eqb_spec src s') as [Heq|_]; [contradiction|].
      rewrite Nat.add_0_r.
      destruct (truthy src).
      * etransitivity; [apply count_source_filter_le|apply Hinv, Hs'].
      * apply Hinv, Hs'.
Qed.

(** *** Resolution of the target temperature *)

Lemma find_none_iff {A : Type} (f : A -> bool) (l : list A) :
  (forall x, In x l -> f x = false) -> List.find f l = None.
Proof.
  induction l as [|a l IH]; intros H; cbn; [reflexivity|].
  rewrite (H a (or_introl eq_refl)). apply IH. intros x Hx. apply H. right. exact Hx.
Qed.

Lemma find_app_skip {A : Type} (f : A -> bool) (l l' : list A) :
  (forall x, In x l -> f x = false) -> List.find f (l ++ l') = List.find f l'.
Proof.
  induction l as [|a l IH]; intros H; cbn; [reflexivity|].
  rewrite (H a (or_introl eq_refl)). apply IH. intros x Hx. apply H. right. exact Hx.
Qed.

(** The downward scan returns the target of the first boost request met
    from the tail. *)
Lemma boost_scan_find reqs n :
  (n <= length reqs)%nat ->
  boost_scan BOOST reqs n
  = option_map target (List.find (is_boost BOOST) (rev (take n reqs))).
Proof.
  induction n as [|n IH]; intros Hn; [reflexivity|].
  destruct (lookup_lt_is_Some_2 reqs n) as [r Hr]; [lia|].
  cbn [boost_scan]. rewrite Hr, (take_S_r _ _ _ Hr), rev_unit.
  cbn [List.find]. unfold is_boost at 1.
  destruct (until r =? BOOST); [reflexivity|]. apply IH. lia.
Qed.

Lemma boost_scan_last_boost l1 r l2 :
  until r = BOOST -> (forall r', In r' l2 -> until r' <> BOOST) ->
  boost_scan BOOST (l1 ++ r :: l2) (length (l1 ++ r :: l2)) = Some (target r).
Proof.
  intros Hb Hl2. rewrite boost_scan_find by lia.
  rewrite take_ge by lia. rewrite rev_app_distr. cbn [rev].
  rewrite <- app_assoc. rewrite find_app_skip.
  - cbn. unfold is_boost. rewrite Hb, Z.eqb_refl. reflexivity.
  - intros x Hx. apply in_rev in Hx. unfold is_boost.
    apply Z.eqb_neq. apply Hl2, Hx.
Qed.

Lemma boost_scan_no_boost reqs :
  (forall r', In r' reqs -> until r' <> BOOST) ->
  boost_scan BOOST reqs (length reqs) = None.
Proof.
  intros Hn. rewrite boost_scan_find by lia. rewrite take_ge by lia.
  rewrite find_none_iff; [reflexivity|].
  intros x Hx. apply in_rev in Hx. unfold is_boost. apply Z.eqb_neq. apply Hn, Hx.
Qed.

(** C3: [getTargetTemperature] returns the target of the last boost
    request among the requests that remain after the purge; without a
    boost request, the target of the last request; without any request,
    the value of [timeline.valueAtTime] at the time of day. *)
Theorem getTargetTemperature_resolution clk self out :
  let reqs := requests (fst (purgeRequests BOOST clk None self out)) in
  let result := fst (fst (getTargetTemperature BOOST clk self out)) in
  (forall l1 r l2,
      reqs = l1 ++ r :: l2 -> until r = BOOST ->
      (forall r', In r' l2 -> until r' <> BOOST) ->
      result = Normal (target r))
  /\ (forall l r,
         reqs = l ++ [r] -> (forall r', In r' reqs -> until r' <> BOOST) ->
         result = Normal (target r))
  /\ (forall v,
         reqs = [] ->
         valueAtTime (timeline self) (time_of_day clk) = Normal v ->
         result = Normal v).
Proof.
  cbn zeta. unfold getTargetTemperature.
  pose proof (purgeRequests_fields clk None self out) as (_ & _ & Htl).
  destruct (purgeRequests BOOST clk None self out) as [self1 out1].
  cbn [fst] in *. repeat split.
  - intros l1 r l2 Hreqs Hb Hl2. rewrite Hreqs.
    rewrite boost_scan_last_boost by assumption.
    rewrite length_app. cbn [length].
    replace (0 <? length l1 + S (length l2))%nat with true
      by (symmetry; apply Nat.ltb_lt; lia).
    reflexivity.
  - intros l r Hreqs Hn. rewrite boost_scan_no_boost by exact Hn.
    rewrite Hreqs, length_app. cbn [length].
    replace (0 <? length l + 1)%nat with true
      by (symmetry; apply Nat.ltb_lt; lia).
    replace (length l + 1 - 1)%nat with (length l + 0)%nat by lia.
    rewrite lookup_app_r by lia.
    replace (length l + 0 - length l)%nat with 0%nat by lia. reflexivity.
  - intros v Hreqs Hv. rewrite Hreqs. cbn. rewrite Htl, Hv. reflexivity.
Qed.

(** C10: with no request left after the purge, when
    [timeline.valueAtTime] throws, [getTargetTemperature] completes
    normally with 0, and the exception is traced. *)
Theorem getTargetTemperature_catches clk self out e :
  requests (fst (purgeRequests BOOST clk None self out)) = [] ->
  valueAtTime (timeline self) (time_of_day clk) = Throw e ->
  fst (fst (getTargetTemperature BOOST clk self out)) = Normal 0%Q
  /\ snd (getTargetTemperature BOOST clk self out)
     = snd (purgeRequests BOOST clk None self out) ++ [TraceException e].
Proof.
  intros Hreqs He. unfold getTargetTemperature.
  pose proof (purgeRequests_fields clk None self out) as (_ & _ & Htl).
  destruct (purgeRequests BOOST clk None self out) as [self1 out1].
  cbn [fst snd] in *. rewrite Hreqs. cbn. rewrite Htl, He. cbn. auto.
Qed.

End ThermostatFacts.

(** C4, an instance: of an expired and a live request the live one stays. *)
Lemma purgeRequests_expiry_witness :
  In Scenario.req_live
    (Thermostat.requests
       (fst (Thermostat.purgeRequests Scenario.boost_mark Scenario.clk0 None
               (Scenario.thermostat_of Scenario.timeline0
                  [Scenario.req_old; Scenario.req_live]) []))).
Proof.
  apply (proj2 (purgeRequests_expiry Scenario.boost_mark Scenario.clk0 None
                  (Scenario.thermostat_of Scenario.timeline0
                     [Scenario.req_old; Scenario.req_live]) [] eq_refl)).
  - cbn. auto.
  - cbn. unfold Scenario.boost_mark. lia.
  - cbn. lia.
Defined.

(** C5, an instance: a boost request below its target stays, whatever the
    time. *)
Lemma boost_request_purged_witness :
  In Scenario.req_boost
    (Thermostat.requests
       (fst (Thermostat.purgeRequests Scenario.boost_mark
               {| Thermostat.nowSeconds := 999999; Thermostat.time_of_day := 0 |}
               None
               (Scenario.thermostat_of Scenario.timeline0 [Scenario.req_boost]) []))).
Proof.
  apply (proj2 (boost_request_purged Scenario.boost_mark Scenario.clk0
                  {| Thermostat.nowSeconds := 999999; Thermostat.time_of_day := 0 |}
                  None
                  (Scenario.thermostat_of Scenario.timeline0 [Scenario.req_boost])
                  [] Scenario.req_boost
                  (or_introl eq_refl) eq_refl)).
  vm_compute. auto.
Defined.

(** C5, a counterexample: a call of [purgeRequests] with the
    source of a boost request removes it although the temperature is below
    its target and below the maximum of the timeline. *)
Lemma boost_request_purged_by_source :
  ~ (exists BOOST, forall clk m self out r,
        In r (Thermostat.requests self) -> Thermostat.until r = BOOST ->
        (~ In r (Thermostat.requests
                   (fst (Thermostat.purgeRequests BOOST clk m self out)))
         <-> ((Thermostat.target r <= Thermostat.temperature self)%Q
              \/ (Thermostat.tl_max (Thermostat.timeline self)
                  <= Thermostat.temperature self)%Q))).
Proof.
  intros [B H].
  set (r := {| Thermostat.source := "A"; Thermostat.target := 45%Q;
               Thermostat.until := B |}).
  specialize (H Scenario.clk0 (Some [Thermostat.BySource "A"])
                (Scenario.thermostat_of Scenario.timeline0 [r]) [] r
                (or_introl eq_refl) eq_refl).
  rewrite purgeRequests_requests in H.
  cbn [Thermostat.requests Scenario.thermostat_of Thermostat.criteria List.filter] in H.
  rewrite (kept_boost B _ _ _ r eq_refl) in H. cbn in H.
  destruct H as [Hremoved _].
  destruct (Hremoved (fun x => x)) as [Hle|Hle];
    unfold Qle in Hle; cbn in Hle; lia.
Qed.

(** C6, an instance: two calls for source ["A"] leave one request of it. *)
Lemma addRequest_one_per_source_witness :
  Thermostat.count_source "A"
    (Thermostat.requests
       (fst (Thermostat.addRequest Scenario.boost_mark Scenario.clk0 "A" 21%Q 5000
               (fst (Thermostat.addRequest Scenario.boost_mark Scenario.clk0 "A" 19%Q 4000
                       (Scenario.thermostat_of Scenario.timeline0 []) []))
               [])))
  = 1%nat.
Proof.
  apply (proj1 (addRequest_one_per_source Scenario.boost_mark)).
  discriminate.
Defined.

(** C6, a counterexample with the empty source: [addRequest]
    skips the purge when the source is falsy, so two calls with source
    [""] leave two requests of that source. *)
Lemma addRequest_empty_source_twice :
  ~ (exists BOOST, forall calls self out s,
        Thermostat.requests self = [] ->
        (Thermostat.count_source s
           (Thermostat.requests (fst (Thermostat.addRequests BOOST calls self out)))
         <= 1)%nat).
Proof.
  intros [B H].
  specialize (H [(Scenario.clk0, "", 19%Q, 4000); (Scenario.clk0, "", 21%Q, 5000)]
                (Scenario.thermostat_of Scenario.timeline0 []) [] "" eq_refl).
  cbn in H. lia.
Qed.

(** C3, an instance: the later of two boost requests wins over a request
    added after it. *)
Lemma getTargetTemperature_resolution_witness :
  fst (fst (Thermostat.getTargetTemperature Scenario.boost_mark Scenario.clk0
              (Scenario.thermostat_of Scenario.timeline0
                 [ {| Thermostat.source := "B"; Thermostat.target := 30%Q;
                      Thermostat.until := Scenario.boost_mark |};
                   Scenario.req_boost; Scenario.req_live ]) []))
  = Normal 45%Q.
Proof.
  apply (proj1 (getTargetTemperature_resolution Scenario.boost_mark Scenario.clk0
                  (Scenario.thermostat_of Scenario.timeline0
                     [ {| Thermostat.source := "B"; Thermostat.target := 30%Q;
                          Thermostat.until := Scenario.boost_mark |};
                       Scenario.req_boost; Scenario.req_live ]) [])
               [ {| Thermostat.source := "B"; Thermostat.target := 30%Q;
                    Thermostat.until := Scenario.boost_mark |} ]
               Scenario.req_boost [Scenario.req_live]).
  - vm_compute. reflexivity.
  - reflexivity.
  - intros r' [<-|[]]. vm_compute. discriminate.
Defined.

(** C10, an instance: a timeline that throws gives the target 0. *)
Lemma getTargetTemperature_catches_witness :
  fst (fst (Thermostat.getTargetTemperature Scenario.boost_mark Scenario.clk0
              (Scenario.thermostat_of Scenario.timeline_broken [Scenario.req_old]) []))
  = Normal 0%Q.
Proof.
  apply (proj1 (getTargetTemperature_catches Scenario.boost_mark Scenario.clk0
                  (Scenario.thermostat_of Scenario.timeline_broken [Scenario.req_old])
                  [] (Error "valueAtTime") eq_refl eq_refl)).
Defined.

(** ** Pin *)

Section PinFacts.

Import Pin.

(** A request at which the purge loop reads [Time]: no argument matches
    it and its state is not 2. *)
Lemma purge_test_cases st src r :
  (forced st src r = true /\ purge_test st src r = Normal true)
  \/ (forced st src r = false /\ state r = 2 /\ purge_test st src r = Normal false)
  \/ (forced st src r = false /\ state r <> 2
      /\ purge_test st src r = Throw ReferenceError).
Proof.
  unfold purge_test. destruct (forced st src r); [auto|].
  destruct (Z.eqb_spec (state r) 2); auto.
Qed.

(** The loop over requests that it can all decide: those that an argument
    matches are removed, the others are boost requests and stay. *)
Lemma pin_purge_loop_returns st src i reqs out :
  Forall (fun r => forced st src r = false -> state r = 2) (drop i reqs) ->
  purge_pin_loop st src i reqs out
  = (Normal tt,
     take i reqs ++ List.filter (fun r => negb (forced st src r)) (drop i reqs),
     out ++ map TracePurgeRequest (List.filter (forced st src) (drop i reqs))).
Proof.
  funelim (purge_pin_loop st src i reqs out); intros Hall.
  - rewrite (drop_S _ _ _ e) in Hall |- *. cbn [List.filter map].
    apply Forall_cons in Hall as [Hr Hall].
    destruct (purge_test_cases st src r) as [(Hf & Ht)|[(Hf & Hs & Ht)|(Hf & Hs & Ht)]];
      rewrite Ht, Hf; cbn [negb].
    + rewrite (H true) by (rewrite splice1_drop; exact Hall).
      rewrite splice1_take, splice1_drop. cbn [map].
      rewrite <- app_assoc. reflexivity.
    + rewrite (H0 false) by exact Hall.
      rewrite (take_S_r _ _ _ e), <- app_assoc. reflexivity.
    + destruct (Hs (Hr Hf)).
  - assert (Hn : reqs !! i = None) by assumption.
    apply lookup_ge_None in Hn.
    rewrite take_ge, drop_ge by lia. cbn. rewrite !app_nil_r. reflexivity.
Qed.

(** The loop up to the first request at which it reads [Time]: the
    exception leaves the loop with the requests before it purged and the
    rest of the list as it was. *)
Lemma pin_purge_loop_throws st src i reqs out l1 r l2 :
  drop i reqs = l1 ++ r :: l2 ->
  Forall (fun r => forced st src r = false -> state r = 2) l1 ->
  forced st src r = false -> state r <> 2 ->
  purge_pin_loop st src i reqs out
  = (Throw ReferenceError,
     take i reqs ++ List.filter (fun r => negb (forced st src r)) l1 ++ r :: l2,
     out ++ map TracePurgeRequest (List.filter (forced st src) l1)).
Proof.
  revert l1. funelim (purge_pin_loop st src i reqs out); intros l1 Hdrop Hall Hf Hs.
  - rewrite (drop_S _ _ _ e) in Hdrop.
    destruct l1 as [|a l1]; cbn [app] in Hdrop; injection Hdrop as <- Hrest.
    + destruct (purge_test_cases st src r) as [(Hf' & Ht)|[(Hf' & Hs' & Ht)|(Hf' & Hs' & Ht)]];
        try congruence.
      rewrite Ht. cbn. rewrite app_nil_r.
      rewrite <- (take_drop i reqs) at 1. rewrite (drop_S _ _ _ e), Hrest.
      reflexivity.
    + apply Forall_cons in Hall as [Hr Hall]. cbn [List.filter map].
      destruct (purge_test_cases st src r) as [(Hf' & Ht)|[(Hf' & Hs' & Ht)|(Hf' & Hs' & Ht)]];
        rewrite Ht, Hf'; cbn [negb].
      * rewrite (H true _ _ l1 ltac:(rewrite splice1_drop; exact Hrest) Hall Hf Hs).
        rewrite splice1_take. cbn [map]. rewrite <- app_assoc. reflexivity.
      * rewrite (H0 false _ _ l1 Hrest Hall Hf Hs).
        rewrite (take_S_r _ _ _ e), <- !app_assoc. reflexivity.
      * destruct (Hs' (Hr Hf')).
  - assert (Hn : reqs !! i = None) by assumption.
    apply lookup_ge_None in Hn. rewrite drop_ge in Hdrop by lia.
    destruct l1; discriminate.
Qed.

(** Every list either can be decided throughout, or has a first request
    at which the loop reads [Time]. *)
Lemma first_undecided st src (l : list Request) :
  Forall (fun r => forced st src r = false -> state r = 2) l
  \/ exists l1 r l2,
       l = l1 ++ r :: l2
       /\ Forall (fun r => forced st src r = false -> state r = 2) l1
       /\ forced st src r = false /\ state r <> 2.
Proof.
  induction l as [|a l IH]; [left; constructor|].
  destruct (forced st src a) eqn:Hf.
  - destruct IH as [IH|(l1 & r & l2 & -> & Hall & Hr)].
    + left. constructor; [congruence|exact IH].
    + right. exists (a :: l1), r, l2. repeat split; try tauto.
      constructor; [congruence|exact Hall].
  - destruct (Z.eq_dec (state a) 2) as [Hs|Hs].
    + destruct IH as [IH|(l1 & r & l2 & -> & Hall & Hr)].
      * left. constructor; auto.
      * right. exists (a :: l1), r, l2. repeat split; try tauto.
        constructor; auto.
    + right. exists [], a, l. repeat split; auto.
Qed.

(** [purgeRequests], by cases on the requests of the pin. *)
Lemma pin_purgeRequests_cases st src self out :
  (Forall (fun r => forced st src r = false -> state r = 2) (requests self)
   /\ purgeRequests st src self out
      = (Normal tt,
         set_requests self
           (List.filter (fun r => negb (forced st src r)) (requests self)),
         out ++ map TracePurgeRequest (List.filter (forced st src) (requests self))))
  \/ exists l1 r l2,
       requests self = l1 ++ r :: l2
       /\ Forall (fun r => forced st src r = false -> state r = 2) l1
       /\ forced st src r = false /\ state r <> 2
       /\ purgeRequests st src self out
          = (Throw ReferenceError,
             set_requests self
               (List.filter (fun r => negb (forced st src r)) l1 ++ r :: l2),
             out ++ map TracePurgeRequest (List.filter (forced st src) l1)).
Proof.
  unfold purgeRequests.
  destruct (first_undecided st src (requests self))
    as [Hall|(l1 & r & l2 & Hreqs & Hall & Hf & Hs)].
  - left. split; [exact Hall|].
    rewrite pin_purge_loop_returns by (rewrite drop_0; exact Hall).
    rewrite drop_0. reflexivity.
  - right. exists l1, r, l2. repeat split; auto.
    rewrite (pin_purge_loop_throws st src 0 _ out l1 r l2) by (rewrite ?drop_0; auto).
    reflexivity.
Qed.

(** Without arguments nothing is matched. *)
Lemma filter_not_forced (l : list Request) :
  List.filter (fun r => negb (forced None None r)) l = l.
Proof.
  induction l as [|a l IH]; cbn [List.filter]; [reflexivity|].
  change (forced None None a) with false. cbn [negb]. rewrite IH. reflexivity.
Qed.

Lemma filter_forced (l : list Request) :
  List.filter (forced None None) l = [].
Proof.
  induction l as [|a l IH]; cbn [List.filter]; [reflexivity|].
  change (forced None None a) with false. exact IH.
Qed.

Lemma set_requests_same (self : t) : set_requests self (requests self) = self.
Proof. destruct self; reflexivity. Qed.

(** A purge without arguments reads [Time] at the first request whose
    state is not 2, and removes nothing. *)
Lemma pin_purge_no_arguments self out :
  (Forall (fun r => state r = 2) (requests self)
   /\ purgeRequests None None self out = (Normal tt, self, out))
  \/ ((exists r, In r (requests self) /\ state r <> 2)
      /\ purgeRequests None None self out = (Throw ReferenceError, self, out)).
Proof.
  destruct (pin_purgeRequests_cases None None self out)
    as [(Hall & Heq)|(l1 & r & l2 & Hreqs & Hall & Hf & Hs & Heq)]; rewrite Heq.
  - left. split.
    + eapply Forall_impl; [exact Hall|]. cbn. auto.
    + rewrite filter_not_forced, filter_forced, set_requests_same. cbn.
      rewrite app_nil_r. reflexivity.
  - right. split.
    + exists r. split; [|exact Hs]. rewrite Hreqs. apply in_or_app. right. left.
      reflexivity.
    + rewrite filter_not_forced, filter_forced, <- Hreqs, set_requests_same. cbn.
      rewrite app_nil_r. reflexivity.
Qed.

(** With a request for state 0 ahead, the loop of [getActiveRequest]
    returns a request for state 0, whatever it holds in [active_req]: the
    scan itself lets a request for state 0 override the others. *)
Lemma active_loop_off reqs active_req r :
  In r reqs -> state r = 0 ->
  exists r', active_loop reqs active_req = Some r' /\ state r' = 0.
Proof.
  revert active_req. induction reqs as [|a reqs IH]; intros active_req Hin Hoff.
  - destruct Hin.
  - cbn [active_loop].
    destruct (Z.eqb_spec (state a) 0) as [Ha|Ha].
    + exists a. destruct active_req; auto.
    + destruct Hin as [->|Hin]; [contradiction|].
      destruct active_req; apply IH; assumption.
Qed.

(** C7: [getActiveRequest] does not return a request for state 0.  When
    the requests of a pin hold a request for state 0, whatever the other
    requests and whatever the order of the list, the purge that
    [getActiveRequest] starts with reads [Time], which the file of the
    class does not bind: the call throws a ReferenceError before the scan
    that would let state 0 override, and the pin and the console are left
    as they were. *)
Theorem getActiveRequest_off_request_throws self out r :
  In r (requests self) -> state r = 0 ->
  getActiveRequest self out = (Throw ReferenceError, self, out).
Proof.
  intros Hin Hoff. unfold getActiveRequest.
  destruct (pin_purge_no_arguments self out) as [(Hall & Heq)|(_ & Heq)];
    rewrite Heq; [|reflexivity].
  pose proof (proj1 (List.Forall_forall _ _) Hall r Hin) as Hboost.
  cbn beta in Hboost. lia.
Qed.

End PinFacts.

(** C7, an instance: an off request added after a boost request. *)
Lemma getActiveRequest_off_request_throws_witness :
  Pin.getActiveRequest (Scenario.pin_of [Scenario.pin_boost; Scenario.pin_off]) []
  = (Throw ReferenceError, Scenario.pin_of [Scenario.pin_boost; Scenario.pin_off], []).
Proof.
  apply (getActiveRequest_off_request_throws
           (Scenario.pin_of [Scenario.pin_boost; Scenario.pin_off]) []
           Scenario.pin_off).
  - cbn. auto.
  - reflexivity.
Defined.

(** ** Controller: setPromise *)

Section SetPromiseFacts.

Import Controller.

Lemma run_turn fuel c tk :
  settled tk = false ->
  run (S fuel) c tk
  = let '(c1, tk1, evs) := step c tk in
    let '(c2, tk2, evs') := run fuel c1 tk1 in
    (c2, tk2, evs ++ evs').
Proof. intros Hs. cbn [run]. rewrite Hs. reflexivity. Qed.

Lemma run_settled fuel c tk :
  settled tk = true -> run fuel c tk = (c, tk, []).
Proof. intros Hs. destruct fuel; cbn [run]; [|rewrite Hs]; reflexivity. Qed.

Ltac turn :=
  rewrite run_turn by reflexivity;
  unfold step, setPromise, on_state, on_callback, handler_this, read_valve_return;
  cbn [set_pin set_pending pin pending valve_return app].

(** C1, what the code does: from CH on and HW off with no transition
    pending, [setPromise("CH", 0)] writes CH=0 and HW=1, sets the flag, and
    then rejects with a TypeError, because the handler that arms the
    timeout reads [this.valve_return] where [this] is [undefined]; the
    wait and the last write of CH never happen and the flag stays set. *)
Theorem setPromise_interlock_rejects c fuel :
  pending c = false -> pin c !! "CH" = Some 1 -> pin c !! "HW" = Some 0 ->
  (7 <= fuel)%nat ->
  run fuel c (Call "CH" 0)
  = (set_pending (set_pin (set_pin c "CH" 0) "HW" 1) true,
     Rejected TypeError,
     [EvWrite "CH" 0; EvWrite "HW" 1]).
Proof.
  intros Hp Hch Hhw Hfuel.
  replace fuel with (7 + (fuel - 7))%nat by lia.
  generalize (fuel - 7)%nat as k. intros k. cbn [Nat.add].
  turn. rewrite Hp, Hch.
  turn. rewrite Hch.
  turn. cbn [Z.eqb Pos.eqb andb String.eqb Ascii.eqb Bool.eqb]. rewrite Hhw.
  cbn [Z.eqb Pos.eqb andb].
  turn. turn. turn. turn.
  rewrite run_settled by reflexivity. reflexivity.
Qed.

(** Had the handler been called with the controller as its receiver, it
    would arm the timeout of [valve_return]. *)
Lemma wait_for_spring_with_receiver c :
  on_callback ThisController c ThenWaitForSpring
  = (set_pending c true, Timer (valve_return c) (Queued ThenSwitchOffCH)).
Proof. reflexivity. Qed.

(** The rest of the chain, which the rejection skips: once the timeout
    has elapsed the flag is cleared and CH is written again. *)
Lemma interlock_after_wait c ms fuel :
  (4 <= fuel)%nat ->
  run fuel c (Timer ms (Queued ThenSwitchOffCH))
  = (set_pin (set_pending c false) "CH" 0, Fulfilled,
     [EvTimer ms; EvWrite "CH" 0]).
Proof.
  intros Hfuel.
  replace fuel with (4 + (fuel - 4))%nat by lia.
  generalize (fuel - 4)%nat as k. intros k. cbn [Nat.add].
  turn. turn. turn. turn.
  rewrite run_settled by reflexivity. reflexivity.
Qed.


Lemma writes_app evs evs' : writes (evs ++ evs') = writes evs ++ writes evs'.
Proof. unfold writes. apply omap_app. Qed.


End SetPromiseFacts.

(** C1, an instance: the run from CH on, HW off. *)
Lemma setPromise_interlock_rejects_witness :
  Controller.run 20 (Scenario.controller_of 1 0 false []) (Controller.Call "CH" 0)
  = (Controller.set_pending
       (Controller.set_pin
          (Controller.set_pin (Scenario.controller_of 1 0 false []) "CH" 0) "HW" 1)
       true,
     Controller.Rejected TypeError,
     [Controller.EvWrite "CH" 0; Controller.EvWrite "HW" 1]).
Proof.
  apply setPromise_interlock_rejects.
  - reflexivity.
  - vm_compute. reflexivity.
  - vm_compute. reflexivity.
  - lia.
Defined.



(** ** Controller: calls in flight together *)

Section Deferral.

Import Controller.

Lemma step_valve_return c tk :
  valve_return (fst (fst (step c tk))) = valve_return c.
Proof.
  destruct tk as [ch ns|ch ns|ch ns cur|p v k|k|ms next| | |]; cbn;
    try reflexivity.
  - destruct (pin c !! ch); reflexivity.
  - destruct k; reflexivity.
Qed.

Lemma writes_of_app i j h evs :
  writes_of i (h ++ map (pair j) evs)
  = writes_of i h ++ (if Nat.eqb j i then writes evs else []).
Proof.
  unfold writes_of. rewrite List.filter_app, map_app, writes_app. f_equal.
  induction evs as [|ev evs IH]; cbn [map List.filter fst].
  - destruct (Nat.eqb j i); reflexivity.
  - destruct (Nat.eqb j i) eqn:Hji; cbn [map snd].
    + change (ev :: evs) with ([ev] ++ evs).
      change (ev :: map snd (List.filter (fun e => Nat.eqb (fst e) i) (map (pair j) evs)))
        with ([ev] ++ map snd (List.filter (fun e => Nat.eqb (fst e) i) (map (pair j) evs))).
      rewrite !writes_app, IH. reflexivity.
    + exact IH.
Qed.

(** One action taken with the flag set leaves a deferred call deferred
    and adds no write of its own. *)
Lemma act_deferred i channel new_state a s :
  pending (ctl s) = true ->
  tasks s !! i = Some (Call channel new_state)
  \/ tasks s !! i = Some (Timer (valve_return (ctl s)) (Call channel new_state)) ->
  (tasks (act a s) !! i = Some (Call channel new_state)
   \/ tasks (act a s) !! i
      = Some (Timer (valve_return (ctl s)) (Call channel new_state)))
  /\ writes_of i (history (act a s)) = writes_of i (history s)
  /\ valve_return (ctl (act a s)) = valve_return (ctl s).
Proof.
  intros Hpend Hi.
  assert (Hlen : (i < length (tasks s))%nat)
    by (destruct Hi as [Hi|Hi]; exact (lookup_lt_Some _ _ _ Hi)).
  destruct a as [j|ch ns]; cbn [act].
  - destruct (decide (j = i)) as [->|Hne].
    + destruct Hi as [Hi|Hi]; rewrite Hi.
      * unfold step, setPromise, read_valve_return. rewrite Hpend.
        cbn [ctl tasks history map]. rewrite app_nil_r.
        rewrite list_lookup_insert_eq by exact Hlen. auto.
      * unfold step. cbn [ctl tasks history].
        rewrite list_lookup_insert_eq by exact Hlen.
        rewrite writes_of_app, Nat.eqb_refl. cbn. rewrite app_nil_r. auto.
    + destruct (tasks s !! j) as [tk|] eqn:Hj; [|auto].
      pose proof (step_valve_return (ctl s) tk) as Hvr.
      destruct (step (ctl s) tk) as [[c1 tk1] evs]. cbn [fst] in Hvr.
      cbn [ctl tasks history].
      rewrite list_lookup_insert_ne by exact Hne.
      rewrite writes_of_app.
      destruct (Nat.eqb_spec j i) as [Heq|_]; [contradiction|].
      rewrite app_nil_r. auto.
  - cbn [ctl tasks history].
    rewrite lookup_app_l by exact Hlen. auto.
Qed.

Lemma exec_deferred i channel new_state acts :
  forall s,
    tasks s !! i = Some (Call channel new_state)
    \/ tasks s !! i = Some (Timer (valve_return (ctl s)) (Call channel new_state)) ->
    pending_throughout acts s ->
    (tasks (exec acts s) !! i = Some (Call channel new_state)
     \/ tasks (exec acts s) !! i
        = Some (Timer (valve_return (ctl s)) (Call channel new_state)))
    /\ writes_of i (history (exec acts s)) = writes_of i (history s).
Proof.
  induction acts as [|a acts IH]; intros s Hi Hp; cbn [exec].
  - auto.
  - destruct Hp as [Hpend Hrest].
    destruct (act_deferred i channel new_state a s Hpend Hi) as (Hi' & Hw & Hvr).
    rewrite <- Hvr in Hi'.
    destruct (IH (act a s) Hi' Hrest) as [Hi'' Hw'].
    rewrite Hvr in Hi''. rewrite Hw'. auto.
Qed.

(** C2, as amended: a call of [setPromise] that is made while the flag
    [pending] is set is put off by a timeout of [valve_return] and tried
    again, and for as long as the flag stays set, whatever else happens in
    the event loop, it is either about to be tried or waiting for that
    timeout, and it has written to no pin. *)
Theorem setPromise_deferred_while_pending acts s i channel new_state :
  tasks s !! i = Some (Call channel new_state) ->
  pending_throughout acts s ->
  (pending (ctl s) = true ->
   step (ctl s) (Call channel new_state)
   = (ctl s, Timer (valve_return (ctl s)) (Call channel new_state), []))
  /\ (tasks (exec acts s) !! i = Some (Call channel new_state)
      \/ tasks (exec acts s) !! i
         = Some (Timer (valve_return (ctl s)) (Call channel new_state)))
  /\ writes_of i (history (exec acts s)) = writes_of i (history s).
Proof.
  intros Hi Hp. split.
  - intros Hpend. unfold step, setPromise, read_valve_return.
    rewrite Hpend. reflexivity.
  - apply exec_deferred; auto.
Qed.

(** Only the handler after the wait clears the flag, and no turn brings a
    call to it: once set, the flag stays set. *)
Lemma step_keeps_flag c tk :
  clears_flag tk = false ->
  clears_flag (snd (fst (step c tk))) = false
  /\ (pending c = true -> pending (fst (fst (step c tk))) = true).
Proof.
  intros Htk.
  destruct tk as [ch ns|ch ns|ch ns cur|p v k|k|ms next| | |];
    cbn [step fst snd] in *; auto.
  - unfold setPromise, read_valve_return. destruct (pending c); cbn; auto.
    destruct (pin c !! ch); auto.
  - destruct (pin c !! ch); auto.
  - unfold on_state. destruct (cur =? ns); cbn; auto.
    destruct ((cur =? 1) && String.eqb ch "CH" && (ns =? 0)); cbn; auto.
    destruct (pin c !! "HW") as [hw|]; cbn; auto.
    destruct (hw =? 0); cbn; auto.
  - destruct k; cbn in *; auto; discriminate.
Qed.

Lemma flag_never_cleared acts :
  forall s,
    pending (ctl s) = true ->
    Forall (fun tk => clears_flag tk = false) (tasks s) ->
    pending (ctl (exec acts s)) = true.
Proof.
  induction acts as [|a acts IH]; intros s Hp Hall; cbn [exec]; [exact Hp|].
  apply IH.
  - destruct a as [j|ch ns]; cbn [act]; [|exact Hp].
    destruct (tasks s !! j) as [tk|] eqn:Hj; [|exact Hp].
    pose proof (proj1 (Forall_lookup _ _) Hall j tk Hj) as Htk. cbn beta in Htk.
    pose proof (step_keeps_flag (ctl s) tk Htk) as [_ Hkeep].
    destruct (step (ctl s) tk) as [[c1 tk1] evs]. cbn in *. auto.
  - destruct a as [j|ch ns]; cbn [act].
    + destruct (tasks s !! j) as [tk|] eqn:Hj; [|exact Hall].
      pose proof (proj1 (Forall_lookup _ _) Hall j tk Hj) as Htk. cbn beta in Htk.
      pose proof (step_keeps_flag (ctl s) tk Htk) as [Hnext _].
      destruct (step (ctl s) tk) as [[c1 tk1] evs]. cbn in *.
      apply Forall_insert; assumption.
    + cbn. apply Forall_app. split; [exact Hall|]. repeat constructor.
Qed.

End Deferral.

(** C2, an instance: a call that arrives with the flag set is waiting for
    its timeout of 8000 ms after three turns, and has written nothing. *)
Lemma setPromise_deferred_while_pending_witness :
  Controller.tasks
    (Controller.exec [Controller.Turn 0; Controller.Turn 0; Controller.Turn 0]
       Scenario.held) !! 0%nat
  = Some (Controller.Timer 8000 (Controller.Call "HW" 0))
  /\ Controller.writes_of 0
       (Controller.history
          (Controller.exec [Controller.Turn 0; Controller.Turn 0; Controller.Turn 0]
             Scenario.held))
     = [].
Proof.
  pose proof (setPromise_deferred_while_pending
                [Controller.Turn 0; Controller.Turn 0; Controller.Turn 0]
                Scenario.held 0 "HW" 0 eq_refl) as H.
  destruct H as (_ & _ & Hw).
  - cbn. auto.
  - split; [reflexivity|exact Hw].
Defined.

(** C2, a counterexample: two calls that both pass the test of
    the flag before either sets it both enter the interlock sequence. *)
Lemma two_interlocks_in_flight :
  ~ (forall acts,
        (Controller.interlocks_in_flight (Controller.exec acts Scenario.idle) <= 1)%nat).
Proof.
  intros H. specialize (H Scenario.race).
  vm_compute in H. lia.
Qed.

(** A call that passed the test of the flag before it was set is not held
    back: in the same race, once the first call has set the flag, a turn
    given to the second call writes CH. *)
Lemma earlier_call_writes_while_pending :
  let s := Controller.exec
             (Scenario.race ++ [Controller.Turn 0; Controller.Turn 0;
                                Controller.Turn 0; Controller.Turn 0])
             Scenario.idle in
  Controller.pending (Controller.ctl s) = true
  /\ Controller.history (Controller.act (Controller.Turn 1) s)
     = Controller.history s ++ [(1%nat, Controller.EvWrite "CH" 0)].
Proof. vm_compute. auto. Qed.

(** ** Controller: pollRules *)

Section PollFacts.

Import Controller.

Variable BOOST : Z.
Variable clk : Thermostat.clock.

(** Rules that return promises are all called, in order. *)
Lemma rule_loop_promises c before rest ps out :
  Forall (fun nr => returns_promise (snd nr)) before ->
  exists ps',
    map fst ps' = names before
    /\ rule_loop c (before ++ rest) ps out = rule_loop c rest (ps ++ ps') out.
Proof.
  revert ps. induction before as [|[n r] before IH]; intros ps Hall.
  - exists []. rewrite app_nil_r. auto.
  - apply Forall_cons in Hall as [(fn & Hfn & Hret) Hall].
    cbn [snd] in Hfn, Hret.
    destruct (Hret (thermostat c) (pin c)) as [p Hp].
    destruct (IH (ps ++ [(rule_name r, p)]) Hall) as (ps' & Hnames & Hloop).
    exists ((rule_name r, p) :: ps'). split.
    + cbn. rewrite Hnames. reflexivity.
    + cbn [app rule_loop]. rewrite Hfn, Hp, Hloop, <- app_assoc. reflexivity.
Qed.

Lemma cleared_timer c :
  poll_timer (match poll_timer c with
              | Some _ => set_poll_timer c None
              | None => c
              end) = None.
Proof. destruct (poll_timer c) eqn:H; [reflexivity|exact H]. Qed.

Lemma cleared_rule c :
  rule (match poll_timer c with
        | Some _ => set_poll_timer c None
        | None => c
        end) = rule c.
Proof. destruct (poll_timer c); reflexivity. Qed.

(** C9, what the code does: when the loop meets a rule that cannot be
    evaluated it logs that and returns from [pollRules]; the rules after
    it are not called in this tick, and the timer, cleared on entry, is
    not armed again. *)
Theorem pollRules_stops_at_unevaluable_rule c out before n r rest :
  rule c = before ++ (n, r) :: rest ->
  Forall (fun nr => returns_promise (snd nr)) before ->
  testfn r = None ->
  let tk := pollRules BOOST clk c out in
  completed tk = Normal (Some true)
  /\ map fst (called tk) = names before
  /\ poll_timer (after tk) = None
  /\ exists traced,
       console tk = out ++ map LogTrace traced ++ [LogCannotEvaluate (rule_name r)].
Proof.
  intros Hrule Hbefore Hr. cbn zeta. unfold pollRules.
  pose proof (cleared_timer c) as Htimer. pose proof (cleared_rule c) as Hrules.
  destruct (purge_all BOOST clk _ []) as [ths traced].
  cbn [rule set_thermostat]. rewrite Hrules, Hrule.
  match goal with |- context [rule_loop ?c2 _ _ ?o] =>
    destruct (rule_loop_promises c2 before ((n, r) :: rest) [] o Hbefore)
      as (ps & Hnames & Hloop) end.
  rewrite Hloop. cbn [rule_loop app]. rewrite Hr.
  cbn [completed called after console set_thermostat poll_timer].
  rewrite Htimer, <- app_assoc. eauto 6.
Qed.

(** X27: a test function that throws is not caught: the exception leaves
    [pollRules], the rules after it are not called, and the timer that
    was cleared is not armed again. *)
Lemma pollRules_propagates_throw c out before n r rest fn e :
  rule c = before ++ (n, r) :: rest ->
  Forall (fun nr => returns_promise (snd nr)) before ->
  testfn r = Some fn -> (forall ths pins, fn ths pins = Throw e) ->
  let tk := pollRules BOOST clk c out in
  completed tk = Throw e
  /\ map fst (called tk) = names before
  /\ poll_timer (after tk) = None.
Proof.
  intros Hrule Hbefore Hr He. cbn zeta. unfold pollRules.
  pose proof (cleared_timer c) as Htimer. pose proof (cleared_rule c) as Hrules.
  destruct (purge_all BOOST clk _ []) as [ths traced].
  cbn [rule set_thermostat]. rewrite Hrules, Hrule.
  match goal with |- context [rule_loop ?c2 _ _ ?o] =>
    destruct (rule_loop_promises c2 before ((n, r) :: rest) [] o Hbefore)
      as (ps & Hnames & Hloop) end.
  rewrite Hloop. cbn [rule_loop app]. rewrite Hr, He.
  cbn [completed called after console set_thermostat poll_timer].
  rewrite Htimer. auto.
Qed.

Lemma catch_handlers_logs ps : forall out n e,
  In (n, Rejects e) ps -> In (LogFailed n e) (catch_handlers ps out).
Proof.
  assert (Hkeep : forall ps out x, In x out -> In x (catch_handlers ps out)).
  { clear. induction ps as [|[n [|e]] ps IH]; intros out x Hx; cbn; auto.
    apply IH. apply in_or_app. auto. }
  induction ps as [|[n' [|e']] ps IH]; intros out n e Hin; cbn.
  - destruct Hin.
  - destruct Hin as [Heq|Hin]; [discriminate|]. apply IH, Hin.
  - destruct Hin as [Heq|Hin].
    + injection Heq as -> ->. apply Hkeep.
      apply in_or_app. right. apply in_or_app. right. cbn. auto.
    + apply IH, Hin.
Qed.

(** X28: what the code gets right: rules whose promises are rejected do
    not stop the tick; every rule is called, each rejection is logged by its
    handler, and the timer is armed again. *)
Lemma pollRules_isolates_rejections c out :
  Forall (fun nr => returns_promise (snd nr)) (rule c) ->
  let tk := pollRules BOOST clk c out in
  completed tk = Normal None
  /\ map fst (called tk) = names (rule c)
  /\ poll_timer (after tk) = Some (rule_interval c)
  /\ forall n e, In (n, Rejects e) (called tk) ->
                 In (LogFailed n e) (catch_handlers (called tk) (console tk)).
Proof.
  intros Hall. cbn zeta. unfold pollRules.
  pose proof (cleared_rule c) as Hrules.
  assert (Hint : rule_interval (match poll_timer c with
                                | Some _ => set_poll_timer c None
                                | None => c
                                end) = rule_interval c)
    by (destruct (poll_timer c); reflexivity).
  destruct (purge_all BOOST clk _ []) as [ths traced].
  cbn [rule set_thermostat]. rewrite Hrules.
  match goal with |- context [rule_loop ?c2 _ _ ?o] =>
    destruct (rule_loop_promises c2 (rule c) [] [] o Hall)
      as (ps & Hnames & Hloop) end.
  rewrite app_nil_r in Hloop. rewrite Hloop. cbn [rule_loop app].
  cbn [completed called after console set_thermostat set_poll_timer poll_timer
       rule_interval].
  rewrite Hint. repeat split; auto.
  intros n e Hin. apply catch_handlers_logs, Hin.
Qed.

End PollFacts.

(** C9, an instance: the rule for HW cannot be evaluated, so the rule for
    CH is not called and no timer is left armed. *)
Lemma pollRules_stops_at_unevaluable_rule_witness :
  let tk :=
    Controller.pollRules Scenario.boost_mark Scenario.clk0
      (Scenario.controller_of 1 0 false
         [("HW", Scenario.rule_unevaluable "HW"); ("CH", Scenario.rule_ok "CH")])
      [] in
  Controller.called tk = [] /\ Controller.poll_timer (Controller.after tk) = None.
Proof.
  destruct (pollRules_stops_at_unevaluable_rule Scenario.boost_mark Scenario.clk0
              (Scenario.controller_of 1 0 false
                 [("HW", Scenario.rule_unevaluable "HW"); ("CH", Scenario.rule_ok "CH")])
              [] [] "HW" (Scenario.rule_unevaluable "HW")
              [("CH", Scenario.rule_ok "CH")] eq_refl (List.Forall_nil _) eq_refl)
    as (_ & Hcalled & Htimer & _).
  cbn zeta. split; [|exact Htimer].
  destruct (Controller.called _); [reflexivity|discriminate].
Defined.

(** * Further properties *)

(** ** Thermostat: the purge *)

Section ThermostatPurge.

Import Thermostat.

Variable BOOST : Z.

Lemma filter_sublist {A : Type} (f : A -> bool) (l : list A) :
  sublist (List.filter f l) l.
Proof.
  induction l as [|a l IH]; cbn; [constructor|].
  destruct (f a); [apply sublist_skip|apply sublist_cons]; exact IH.
Qed.

Lemma filter_filter_implied {A : Type} (f g : A -> bool) (l : list A) :
  (forall x, In x l -> g x = true -> f x = true) ->
  List.filter g (List.filter f l) = List.filter g l.
Proof.
  induction l as [|a l IH]; intros H; cbn; [reflexivity|].
  assert (IH' : List.filter g (List.filter f l) = List.filter g l)
    by (apply IH; intros x Hx; apply H; right; exact Hx).
  destruct (f a) eqn:Hf; cbn.
  - rewrite IH'. reflexivity.
  - destruct (g a) eqn:Hg; [|exact IH'].
    rewrite (H a (or_introl eq_refl) Hg) in Hf. discriminate.
Qed.

(** The decision of the loop body reads the thermostat only through its
    temperature and its timeline. *)
Lemma kept_same_readings self self' m clk r :
  temperature self' = temperature self -> timeline self' = timeline self ->
  kept BOOST self' m clk r = kept BOOST self m clk r.
Proof.
  intros Ht Hl. unfold kept, purge_test. rewrite Ht, Hl. reflexivity.
Qed.

Lemma kept_later self m clk clk' r :
  nowSeconds clk <= nowSeconds clk' ->
  kept BOOST self m clk' r = true -> kept BOOST self m clk r = true.
Proof.
  intros Hle. unfold kept, purge_test.
  destruct (until r =? BOOST); [auto|].
  destruct (Z.ltb_spec (until r) (nowSeconds clk'));
    destruct (Z.ltb_spec (until r) (nowSeconds clk)); cbn; auto; lia.
Qed.

(** X1: [purgeRequests] only removes: whatever the criteria and the time,
    the requests it leaves are a sublist of the requests it found, in the
    same order, and the name, the temperature and the timeline of the
    thermostat are as before. *)
Theorem purgeRequests_only_removes clk m self out :
  let self' := fst (purgeRequests BOOST clk m self out) in
  sublist (requests self') (requests self)
  /\ name self' = name self
  /\ temperature self' = temperature self
  /\ timeline self' = timeline self.
Proof.
  cbn zeta. split.
  - rewrite purgeRequests_requests. apply filter_sublist.
  - apply purgeRequests_fields.
Qed.

(** X2: purging is cumulative.  A purge followed by a purge with the same
    criteria at the same or a later time leaves the requests that the
    later purge alone would leave; in particular purging twice at the same
    time is purging once. *)
Theorem purgeRequests_cumulative clk clk' m self out out' :
  nowSeconds clk <= nowSeconds clk' ->
  requests (fst (purgeRequests BOOST clk' m
                   (fst (purgeRequests BOOST clk m self out)) out'))
  = requests (fst (purgeRequests BOOST clk' m self out)).
Proof.
  intros Hle.
  pose proof (purgeRequests_fields BOOST clk m self out) as (_ & Ht & Hl).
  rewrite (purgeRequests_requests BOOST clk' m (fst (purgeRequests BOOST clk m self out))).
  rewrite (purgeRequests_requests BOOST clk' m self).
  rewrite (purgeRequests_requests BOOST clk m self).
  rewrite (List.filter_ext _ (kept BOOST self (criteria m) clk'))
    by (intros r; apply kept_same_readings; assumption).
  apply filter_filter_implied.
  intros r _. apply kept_later, Hle.
Qed.

Lemma kept_other_source self clk s r :
  source r <> s ->
  kept BOOST self [BySource s] clk r = kept BOOST self [] clk r.
Proof.
  intros Hne. unfold kept, purge_test. cbn [match_loop mismatch].
  destruct (String.eqb_spec (source r) s) as [Heq|_]; [contradiction|].
  reflexivity.
Qed.

(** X3: [purgeRequests({source: s})] leaves no request of source [s], and
    of the requests of other sources it leaves exactly those that a purge
    without criteria leaves. *)
Theorem purgeRequests_by_source clk s self out r :
  In r (requests self) ->
  (source r = s ->
   ~ In r (requests (fst (purgeRequests BOOST clk (Some [BySource s]) self out))))
  /\ (source r <> s ->
      (In r (requests (fst (purgeRequests BOOST clk (Some [BySource s]) self out)))
       <-> In r (requests (fst (purgeRequests BOOST clk None self out))))).
Proof.
  intros Hin. rewrite !purgeRequests_requests. cbn [criteria]. split.
  - intros Hs Hr. apply filter_In in Hr as [_ Hk].
    apply kept_by_source in Hk. rewrite Hs, String.eqb_refl in Hk. discriminate.
  - intros Hne. rewrite !filter_In, (kept_other_source _ _ _ _ Hne). reflexivity.
Qed.

End ThermostatPurge.

(** X2, an instance: a purge at 1000 and then at 6000 leaves what a purge
    at 6000 leaves. *)
Lemma purgeRequests_cumulative_witness :
  Thermostat.requests
    (fst (Thermostat.purgeRequests Scenario.boost_mark
            {| Thermostat.nowSeconds := 6000; Thermostat.time_of_day := 0 |} None
            (fst (Thermostat.purgeRequests Scenario.boost_mark Scenario.clk0 None
                    (Scenario.thermostat_of Scenario.timeline0
                       [Scenario.req_old; Scenario.req_live; Scenario.req_boost]) []))
            []))
  = Thermostat.requests
      (fst (Thermostat.purgeRequests Scenario.boost_mark
              {| Thermostat.nowSeconds := 6000; Thermostat.time_of_day := 0 |} None
              (Scenario.thermostat_of Scenario.timeline0
                 [Scenario.req_old; Scenario.req_live; Scenario.req_boost]) [])).
Proof.
  apply (purgeRequests_cumulative Scenario.boost_mark Scenario.clk0
           {| Thermostat.nowSeconds := 6000; Thermostat.time_of_day := 0 |}).
  cbn. lia.
Defined.

(** X3, an instance: purging the source "calendar" keeps the live request
    of "browser". *)
Lemma purgeRequests_by_source_witness :
  In Scenario.req_live
    (Thermostat.requests
       (fst (Thermostat.purgeRequests Scenario.boost_mark Scenario.clk0
               (Some [Thermostat.BySource "calendar"])
               (Scenario.thermostat_of Scenario.timeline0
                  [Scenario.req_old; Scenario.req_live]) []))).
Proof.
  apply (proj2 (purgeRequests_by_source Scenario.boost_mark Scenario.clk0 "calendar"
                  (Scenario.thermostat_of Scenario.timeline0
                     [Scenario.req_old; Scenario.req_live]) []
                  Scenario.req_live (or_intror (or_introl eq_refl)))).
  - discriminate.
  - vm_compute. auto.
Defined.

(** ** Thermostat: reading the target *)

Section ThermostatTarget.

Import Thermostat.

Variable BOOST : Z.

Lemma purgeRequests_fst clk m self out :
  fst (purgeRequests BOOST clk m self out)
  = set_requests self (List.filter (kept BOOST self (criteria m) clk) (requests self)).
Proof.
  pose proof (purgeRequests_requests BOOST clk m self out) as Hr.
  unfold purgeRequests in *.
  destruct (purge_loop _ _ _ _ _ _ _) as [reqs out2]. cbn in *. rewrite Hr. reflexivity.
Qed.

Lemma kept_live self clk r :
  kept BOOST self [] clk r = true <->
  (until r = BOOST /\ ~ (target r <= temperature self)%Q
   /\ ~ (tl_max (timeline self) <= temperature self)%Q)
  \/ (until r <> BOOST /\ nowSeconds clk <= until r).
Proof.
  rewrite kept_no_criteria.
  destruct (Z.eqb_spec (until r) BOOST) as [Hb|Hb].
  - rewrite <- !Qle_bool_iff.
    destruct (Qle_bool (target r) (temperature self));
      destruct (Qle_bool (tl_max (timeline self)) (temperature self));
      cbn; intuition congruence.
  - destruct (Z.ltb_spec (until r) (nowSeconds clk)); cbn; intuition (congruence || lia).
Qed.

(** What [getTargetTemperature] returns, and the thermostat it leaves,
    depend only on the thermostat after the purge. *)
Lemma getTargetTemperature_of_purged clk self self' out out' :
  fst (purgeRequests BOOST clk None self out)
  = fst (purgeRequests BOOST clk None self' out') ->
  fst (getTargetTemperature BOOST clk self out)
  = fst (getTargetTemperature BOOST clk self' out').
Proof.
  unfold getTargetTemperature.
  destruct (purgeRequests BOOST clk None self out) as [s1 o1].
  destruct (purgeRequests BOOST clk None self' out') as [s2 o2].
  cbn [fst]. intros ->.
  destruct (0 <? length (requests s2))%nat.
  - destruct (boost_scan BOOST (requests s2) (length (requests s2))); [reflexivity|].
    destruct (requests s2 !! (length (requests s2) - 1)%nat); reflexivity.
  - destruct (valueAtTime (timeline s2) (time_of_day clk)); reflexivity.
Qed.

Lemma getTargetTemperature_leaves clk self out :
  snd (fst (getTargetTemperature BOOST clk self out))
  = fst (purgeRequests BOOST clk None self out).
Proof.
  unfold getTargetTemperature.
  destruct (purgeRequests BOOST clk None self out) as [s1 o1]. cbn [fst].
  destruct (0 <? length (requests s1))%nat.
  - destruct (boost_scan BOOST (requests s1) (length (requests s1))); [reflexivity|].
    destruct (requests s1 !! (length (requests s1) - 1)%nat); reflexivity.
  - destruct (valueAtTime (timeline s1) (time_of_day clk)); reflexivity.
Qed.

(** The value for a purged list that ends in a request [r]: the target of
    [r] when [r] is a boost request or no request of the list is. *)
Lemma target_of_last clk self out l r :
  requests (fst (purgeRequests BOOST clk None self out)) = l ++ [r] ->
  until r = BOOST \/ (forall r', In r' (l ++ [r]) -> until r' <> BOOST) ->
  fst (fst (getTargetTemperature BOOST clk self out)) = Normal (target r).
Proof.
  intros Hreqs Hcase. unfold getTargetTemperature.
  destruct (purgeRequests BOOST clk None self out) as [s1 o1]. cbn [fst] in *.
  rewrite Hreqs, length_app. cbn [length].
  replace (0 <? length l + 1)%nat with true by (symmetry; apply Nat.ltb_lt; lia).
  destruct Hcase as [Hb|Hn].
  - pose proof (boost_scan_last_boost BOOST l r [] Hb) as Hscan.
    rewrite length_app in Hscan. cbn [length] in Hscan.
    rewrite Hscan by (intros r' []). reflexivity.
  - pose proof (boost_scan_no_boost BOOST (l ++ [r]) Hn) as Hscan.
    rewrite length_app in Hscan. cbn [length] in Hscan. rewrite Hscan.
    replace (length l + 1 - 1)%nat with (length l + 0)%nat by lia.
    rewrite lookup_app_r by lia.
    replace (length l + 0 - length l)%nat with 0%nat by lia. reflexivity.
Qed.

Lemma addRequest_fields clk src tgt unt self out :
  let self' := fst (addRequest BOOST clk src tgt unt self out) in
  temperature self' = temperature self /\ timeline self' = timeline self.
Proof.
  cbn zeta. unfold addRequest. destruct (truthy src).
  - pose proof (purgeRequests_fields BOOST clk (Some [BySource src]) self out)
      as (_ & Ht & Hl).
    destruct (purgeRequests BOOST clk (Some [BySource src]) self out) as [s1 o1].
    cbn in *. auto.
  - cbn. auto.
Qed.

(** The requests left by a purge right after [addRequest], when the new
    request is one that the purge keeps. *)
Lemma purge_after_addRequest clk clk' src tgt unt self out out' :
  kept BOOST self [] clk' {| source := src; target := tgt; until := unt |} = true ->
  exists l,
    requests (fst (purgeRequests BOOST clk' None
                     (fst (addRequest BOOST clk src tgt unt self out)) out'))
    = l ++ [{| source := src; target := tgt; until := unt |}]
    /\ forall r, In r l ->
         In r (requests self) /\ kept BOOST self [] clk' r = true
         /\ (truthy src = true -> source r <> src).
Proof.
  intros Hnew.
  pose proof (addRequest_fields clk src tgt unt self out) as [Ht Hl].
  rewrite purgeRequests_requests, addRequest_requests. cbn [criteria].
  rewrite (List.filter_ext _ (kept BOOST self [] clk'))
    by (intros r; apply kept_same_readings; assumption).
  rewrite List.filter_app. cbn [List.filter]. rewrite Hnew.
  eexists. split; [reflexivity|].
  intros r Hr. apply filter_In in Hr as [Hr Hk].
  destruct (truthy src).
  - apply filter_In in Hr as [Hr Hs]. repeat split; auto.
    intros _ Heq. apply kept_by_source in Hs.
    rewrite Heq, String.eqb_refl in Hs. discriminate.
  - repeat split; auto; discriminate.
Qed.

(** X4: a boost request wins as soon as it is added.  After
    [addRequest(source, target, Utils.BOOST)] on a thermostat whose
    temperature is below the target and below the maximum of the
    timeline, [getTargetTemperature] returns that target, whatever other
    requests there are and whatever the time. *)
Theorem addRequest_boost_wins clk clk' src tgt self out out' :
  ~ (tgt <= temperature self)%Q ->
  ~ (tl_max (timeline self) <= temperature self)%Q ->
  fst (fst (getTargetTemperature BOOST clk'
              (fst (addRequest BOOST clk src tgt BOOST self out)) out'))
  = Normal tgt.
Proof.
  intros Htgt Hmax.
  destruct (purge_after_addRequest clk clk' src tgt BOOST self out out')
    as (l & Hreqs & _).
  { apply kept_live. left. cbn. auto. }
  apply (target_of_last _ _ _ l {| source := src; target := tgt; until := BOOST |} Hreqs).
  left. reflexivity.
Qed.

(** X5: the last request added wins when no boost request is active.
    After [addRequest(source, target, until)] with an [until] that is not
    the boost mark and has not passed, [getTargetTemperature] returns that
    target, provided every boost request of the thermostat is due to be
    purged: its target or the maximum of the timeline is reached, or it is
    from the same (non-empty) source. *)
Theorem addRequest_last_wins clk clk' src tgt unt self out out' :
  unt <> BOOST -> nowSeconds clk' <= unt ->
  (forall r, In r (requests self) -> until r = BOOST ->
             (target r <= temperature self)%Q
             \/ (tl_max (timeline self) <= temperature self)%Q
             \/ (src <> "" /\ source r = src)) ->
  fst (fst (getTargetTemperature BOOST clk'
              (fst (addRequest BOOST clk src tgt unt self out)) out'))
  = Normal tgt.
Proof.
  intros Hnb Hlive Hboost.
  destruct (purge_after_addRequest clk clk' src tgt unt self out out')
    as (l & Hreqs & Hl).
  { apply kept_live. right. cbn. auto. }
  apply (target_of_last _ _ _ l {| source := src; target := tgt; until := unt |} Hreqs).
  right. intros r' Hin Hb. apply in_app_or in Hin as [Hin|[<-|[]]]; [|auto].
  destruct (Hl r' Hin) as (Hold & Hk & Hsrc).
  apply kept_live in Hk as [(_ & Ht & Hm)|[Hnb' _]]; [|auto].
  destruct (Hboost r' Hold Hb) as [H|[H|[Hne Hs]]]; auto.
  apply Hsrc; [|exact Hs]. apply truthy_spec, Hne.
Qed.

(** X6: [getTargetTemperature] never throws, and when requests remain
    after the purge the value it returns is the target of a request of the
    thermostat that is live: a boost request whose target and timeline
    maximum are not reached, or a request whose [until] has not passed. *)
Theorem getTargetTemperature_live clk self out :
  exists v,
    fst (fst (getTargetTemperature BOOST clk self out)) = Normal v
    /\ (requests (fst (purgeRequests BOOST clk None self out)) <> [] ->
        exists r,
          In r (requests self) /\ v = target r
          /\ ((until r = BOOST /\ ~ (target r <= temperature self)%Q
               /\ ~ (tl_max (timeline self) <= temperature self)%Q)
              \/ (until r <> BOOST /\ nowSeconds clk <= until r))).
Proof.
  pose proof (purgeRequests_requests BOOST clk None self out) as Hreqs.
  cbn [criteria] in Hreqs.
  unfold getTargetTemperature.
  destruct (purgeRequests BOOST clk None self out) as [s1 o1]. cbn [fst] in *.
  assert (Hin : forall r, In r (requests s1) ->
                          In r (requests self) /\ kept BOOST self [] clk r = true)
    by (intros r Hr; rewrite Hreqs in Hr; apply filter_In in Hr; exact Hr).
  assert (Hcases : requests s1 = [] \/ exists rs r0, requests s1 = rs ++ [r0]).
  { destruct (requests s1) as [|r0 rs _] using rev_ind; eauto. }
  destruct Hcases as [Hnil|(rs & r0 & Hsnoc)].
  - rewrite Hnil. cbn.
    destruct (valueAtTime (timeline s1) (time_of_day clk)) as [v|e]; cbn;
      eexists; (split; [reflexivity|intros H; contradiction]).
  - rewrite Hsnoc in *.
    rewrite boost_scan_find by lia. rewrite take_ge by lia.
    rewrite length_app. cbn [length].
    replace (0 <? length rs + 1)%nat with true by (symmetry; apply Nat.ltb_lt; lia).
    destruct (List.find (is_boost BOOST) (rev (rs ++ [r0]))) as [rb|] eqn:Hfind; cbn.
    + apply find_some in Hfind as [Hrb _]. apply in_rev in Hrb.
      destruct (Hin rb Hrb) as [Hold Hk].
      exists (target rb). split; [reflexivity|]. intros _.
      exists rb. repeat split; auto. apply kept_live, Hk.
    + replace (length rs + 1 - 1)%nat with (length rs + 0)%nat by lia.
      rewrite lookup_app_r by lia.
      replace (length rs + 0 - length rs)%nat with 0%nat by lia. cbn.
      destruct (Hin r0) as [Hold Hk]; [apply in_or_app; right; left; reflexivity|].
      exists (target r0). split; [reflexivity|]. intros _.
      exists r0. repeat split; auto. apply kept_live, Hk.
Qed.

(** A purge without criteria after one at the same time removes nothing. *)
Lemma purgeRequests_twice clk self out out' :
  fst (purgeRequests BOOST clk None
         (fst (purgeRequests BOOST clk None self out)) out')
  = fst (purgeRequests BOOST clk None self out).
Proof.
  rewrite !purgeRequests_fst. cbn [criteria requests set_requests].
  change (kept BOOST (set_requests self
                        (List.filter (kept BOOST self [] clk) (requests self)))
            [] clk)
    with (kept BOOST self [] clk).
  rewrite filter_filter_implied by auto. reflexivity.
Qed.

Lemma getTargetTemperature_after_purge clk self out out' :
  fst (getTargetTemperature BOOST clk
         (fst (purgeRequests BOOST clk None self out)) out')
  = fst (getTargetTemperature BOOST clk self out).
Proof.
  pose proof (purgeRequests_twice clk self out out') as Hfix.
  apply injective_projections.
  - apply (f_equal fst (getTargetTemperature_of_purged clk _ self out' out Hfix)).
  - rewrite !getTargetTemperature_leaves. exact Hfix.
Qed.

(** X7: reading the target again changes nothing.  A second
    [getTargetTemperature] at the same time, on the thermostat the first
    one left, returns the same value and leaves the same thermostat. *)
Theorem getTargetTemperature_again clk self out out' :
  let first := getTargetTemperature BOOST clk self out in
  fst (getTargetTemperature BOOST clk (snd (fst first)) out') = fst first.
Proof.
  cbn zeta. rewrite getTargetTemperature_leaves.
  apply getTargetTemperature_after_purge.
Qed.

Lemma max_scan_bounds reqs :
  forall n max,
    (n <= length reqs)%nat ->
    (max <= max_scan BOOST reqs n max)%Q
    /\ (forall r, In r (take n reqs) -> until r = BOOST ->
                  (target r <= max_scan BOOST reqs n max)%Q)
    /\ (max_scan BOOST reqs n max = max
        \/ exists r, In r (take n reqs) /\ until r = BOOST
                     /\ max_scan BOOST reqs n max = target r).
Proof.
  induction n as [|n IH]; intros max Hn.
  - cbn. repeat split; [apply Qle_refl|intros r []|auto].
  - destruct (lookup_lt_is_Some_2 reqs n) as [x Hx]; [lia|].
    cbn [max_scan]. rewrite Hx, (take_S_r _ _ _ Hx).
    destruct (Z.eqb_spec (until x) BOOST) as [Hb|Hb]; cbn [andb].
    + destruct (Qle_bool (target x) max) eqn:Hle; cbn [negb].
      * apply Qle_bool_iff in Hle.
        destruct (IH max) as (H1 & H2 & H3); [lia|].
        repeat split; [exact H1| |].
        -- intros r Hr Hrb. apply in_app_or in Hr as [Hr|[<-|[]]]; [auto|].
           apply (Qle_trans _ max); assumption.
        -- destruct H3 as [H3|(r & Hr & Hrb & H3)]; [auto|].
           right. exists r. split; [apply in_or_app; auto|auto].
      * assert (Hlt : (max <= target x)%Q).
        { apply Qlt_le_weak, Qnot_le_lt. intros H.
          apply Qle_bool_iff in H. congruence. }
        destruct (IH (target x)) as (H1 & H2 & H3); [lia|].
        repeat split.
        -- apply (Qle_trans _ (target x)); assumption.
        -- intros r Hr Hrb. apply in_app_or in Hr as [Hr|[<-|[]]]; auto.
        -- right. destruct H3 as [H3|(r & Hr & Hrb & H3)].
           ++ exists x. split; [apply in_or_app; right; left; reflexivity|auto].
           ++ exists r. split; [apply in_or_app; auto|auto].
    + destruct (IH max) as (H1 & H2 & H3); [lia|].
      repeat split; [exact H1| |].
      * intros r Hr Hrb. apply in_app_or in Hr as [Hr|[<-|[]]]; [auto|contradiction].
      * destruct H3 as [H3|(r & Hr & Hrb & H3)]; [auto|].
        right. exists r. split; [apply in_or_app; auto|auto].
Qed.

(** X8: [getMaximumTemperature] returns the largest of the maximum value
    of the timeline and the targets of the boost requests: it is at least
    each of them and it is one of them.  The requests are taken as they
    are, without a purge. *)
Theorem getMaximumTemperature_bounds max_value self :
  let m := getMaximumTemperature BOOST max_value self in
  (max_value <= m)%Q
  /\ (forall r, In r (requests self) -> until r = BOOST -> (target r <= m)%Q)
  /\ (m = max_value
      \/ exists r, In r (requests self) /\ until r = BOOST /\ m = target r).
Proof.
  cbn zeta. unfold getMaximumTemperature.
  destruct (requests self) as [|r0 rs] eqn:Hreqs.
  - cbn. repeat split; [apply Qle_refl|intros r []|auto].
  - replace (0 <? length (r0 :: rs))%nat with true by reflexivity.
    pose proof (max_scan_bounds (r0 :: rs) (length (r0 :: rs)) max_value (le_n _))
      as Hb.
    rewrite take_ge in Hb by lia. exact Hb.
Qed.

(** X9: [getSerialisableState] reports the temperature, the target that
    [getTargetTemperature] gives, and the requests that one purge leaves:
    the purge it starts with and the one inside [getTargetTemperature] do
    together what one does, so no request that has expired is reported. *)
Theorem getSerialisableState_reports clk self out :
  fst (fst (getSerialisableState BOOST clk self out))
  = {| st_temperature := temperature self;
       st_target := fst (fst (getTargetTemperature BOOST clk self out));
       st_requests := requests (fst (purgeRequests BOOST clk None self out)) |}.
Proof.
  unfold getSerialisableState.
  pose proof (purgeRequests_fields BOOST clk None self out) as (_ & Ht & _).
  pose proof (getTargetTemperature_after_purge clk self out) as Hagain.
  pose proof (getTargetTemperature_leaves clk self out) as Hleft.
  destruct (purgeRequests BOOST clk None self out) as [s1 o1]. cbn [fst] in *.
  specialize (Hagain o1).
  destruct (getTargetTemperature BOOST clk s1 o1) as [[tgt s2] o2].
  cbn [fst snd] in *. rewrite Ht.
  rewrite <- Hagain in Hleft |- *. cbn in Hleft |- *. rewrite Hleft. reflexivity.
Qed.

End ThermostatTarget.

(** ** Thermostat: polling *)

Section ThermostatPolling.

Import Thermostat.

(** X10: the polling loop keeps the last temperature that was read.
    Started with [interrupted] unset, after any run of sensor outcomes the
    temperature is the last successful reading up to and including the
    poll during which [interrupt()] was called (a failed reading leaves
    the temperature as it was), the requests are untouched, and
    [interrupted] is unset again. *)
Theorem polls_temperature readings :
  forall p out,
    interrupted p = false ->
    let p' := fst (polls readings p out) in
    temperature (thermo p')
    = last_reading (until_interrupt readings) (temperature (thermo p))
    /\ requests (thermo p') = requests (thermo p)
    /\ interrupted p' = false.
Proof.
  induction readings as [|[reading during] readings IH];
    intros [th i pi] out Hp; cbn in Hp; subst i; cbn zeta.
  - cbn. auto.
  - cbn [polls until_interrupt]. unfold poll.
    destruct during; destruct reading as [v|e]; cbn; auto;
      apply IH; reflexivity.
Qed.

End ThermostatPolling.

(** ** Pin: the requests *)

Section PinRequests.

Import Pin.

Lemma pin_count_app s l1 l2 :
  count_source s (l1 ++ l2) = (count_source s l1 + count_source s l2)%nat.
Proof. unfold count_source. rewrite List.filter_app, length_app. reflexivity. Qed.

Lemma pin_count_filter_le s f l :
  (count_source s (List.filter f l) <= count_source s l)%nat.
Proof.
  unfold count_source. induction l as [|r l IH]; cbn; [lia|].
  destruct (f r); cbn; destruct (String.eqb (source r) s); cbn; lia.
Qed.

Lemma pin_count_other_sources s l :
  count_source s (List.filter (fun r => negb (String.eqb (source r) s)) l) = 0%nat.
Proof.
  unfold count_source. induction l as [|r l IH]; cbn; [reflexivity|].
  destruct (String.eqb (source r) s) eqn:Hs; cbn; [exact IH|].
  rewrite Hs. exact IH.
Qed.

(** With a source and no state, the requests matched are those of the
    source. *)
Lemma forced_by_source s r :
  forced None (Some s) r = String.eqb (source r) s.
Proof. unfold forced. apply orb_false_r. Qed.

Lemma filter_not_forced_by_source s l :
  List.filter (fun r => negb (forced None (Some s) r)) l
  = List.filter (fun r => negb (String.eqb (source r) s)) l.
Proof.
  apply List.filter_ext. intros r. rewrite forced_by_source. reflexivity.
Qed.

(** X12: on a pin no request is ever purged for its time.  Whatever the
    arguments of [purgeRequests], the requests left are a sublist of the
    requests found, and every request that no argument matches is still
    there.  The call returns exactly when every request that no argument
    matches is a boost request (state 2), and then no request that an
    argument matches is left; otherwise it throws a ReferenceError, at the
    first request for which it reads [Time]. *)
Theorem pin_purgeRequests_never_expires st src self out :
  let '(res, self', out') := purgeRequests st src self out in
  sublist (requests self') (requests self)
  /\ List.filter (fun r => negb (forced st src r)) (requests self')
     = List.filter (fun r => negb (forced st src r)) (requests self)
  /\ (res = Normal tt
      <-> forall r, In r (requests self) -> forced st src r = false -> state r = 2)
  /\ (res = Normal tt ->
      forall r, In r (requests self') -> forced st src r = false)
  /\ (res <> Normal tt -> res = Throw ReferenceError).
Proof.
  destruct (pin_purgeRequests_cases st src self out)
    as [(Hall & Heq)|(l1 & r & l2 & Hreqs & Hall & Hf & Hs & Heq)]; rewrite Heq;
    cbn [requests set_requests].
  - split; [apply filter_sublist|]. split; [apply filter_filter_implied; auto|].
    split; [|split].
    + split; [|reflexivity]. intros _ r Hr.
      exact (proj1 (List.Forall_forall _ _) Hall r Hr).
    + intros _ r Hr. apply filter_In in Hr as [_ Hr].
      apply negb_true_iff, Hr.
    + intros H. destruct (H eq_refl).
  - rewrite Hreqs. split; [|split; [|split; [|split]]].
    + apply sublist_app; [apply filter_sublist|reflexivity].
    + rewrite !List.filter_app. f_equal. apply filter_filter_implied. auto.
    + split; [discriminate|]. intros H.
      destruct Hs. apply (H r); [|exact Hf]. apply in_or_app. right. left.
      reflexivity.
    + discriminate.
    + reflexivity.
Qed.

(** X11: what [addRequest] does on a pin.  Its purge of the source of the
    request reads [Time] at the first request of another source whose
    state is not 2.  So the call returns exactly when every request of
    another source is a boost request; the list then holds the requests
    of the other sources, in order, followed by the new request when its
    state is not negative.  Otherwise it throws a ReferenceError and the
    request is not added: the list it leaves is a sublist of the list it
    found.  Either way a list with at most one request of each source
    stays so. *)
Theorem pin_addRequest_outcome request self out :
  let '(res, self', out') := addRequest request self out in
  (res = Normal tt
   <-> forall r, In r (requests self) -> source r <> source request -> state r = 2)
  /\ (res = Normal tt ->
      requests self'
      = List.filter (fun r => negb (String.eqb (source r) (source request)))
          (requests self)
        ++ (if 0 <=? state request then [request] else []))
  /\ (res <> Normal tt ->
      res = Throw ReferenceError /\ sublist (requests self') (requests self))
  /\ ((forall s, (count_source s (requests self) <= 1)%nat) ->
      forall s, (count_source s (requests self') <= 1)%nat).
Proof.
  unfold addRequest.
  destruct (pin_purgeRequests_cases None (Some (source request)) self
              (out ++ [TraceAddRequest request]))
    as [(Hall & Heq)|(l1 & r & l2 & Hreqs & Hall & Hf & Hs & Heq)]; rewrite Heq.
  - assert (Hret : forall r, In r (requests self) ->
                              source r <> source request -> state r = 2).
    { intros r Hr Hne. apply (proj1 (List.Forall_forall _ _) Hall r Hr).
      rewrite forced_by_source. apply String.eqb_neq, Hne. }
    rewrite filter_not_forced_by_source.
    set (others := List.filter
                     (fun r => negb (String.eqb (source r) (source request)))
                     (requests self)).
    assert (Hcount : forall tail,
               (count_source (source request) tail <= 1)%nat ->
               (forall s, s <> source request -> count_source s tail = 0%nat) ->
               (forall s, (count_source s (requests self) <= 1)%nat) ->
               forall s, (count_source s (others ++ tail) <= 1)%nat).
    { intros tail Hsame Hother Hone s. rewrite pin_count_app.
      destruct (String.eqb_spec s (source request)) as [->|Hne].
      - unfold others. rewrite pin_count_other_sources. lia.
      - rewrite (Hother s Hne). specialize (Hone s).
        pose proof (pin_count_filter_le s
                      (fun r => negb (String.eqb (source r) (source request)))
                      (requests self)).
        fold others in H. lia. }
    destruct (0 <=? state request); cbn [requests set_requests].
    + split; [split; auto|]. split; [reflexivity|].
      split; [intros H; destruct (H eq_refl)|].
      apply Hcount.
      * unfold count_source. cbn. rewrite String.eqb_refl. cbn. lia.
      * intros s Hne. unfold count_source. cbn.
        apply not_eq_sym, String.eqb_neq in Hne. rewrite Hne. reflexivity.
    + split; [split; auto|]. split; [rewrite app_nil_r; reflexivity|].
      split; [intros H; destruct (H eq_refl)|].
      intros Hone s. rewrite <- (app_nil_r others). apply Hcount; auto.
  - cbn [requests set_requests]. rewrite Hreqs.
    split; [|split; [|split]].
    + split; [discriminate|]. intros H. destruct Hs.
      apply (H r).
      * apply in_or_app. right. left. reflexivity.
      * apply String.eqb_neq. rewrite <- forced_by_source. exact Hf.
    + discriminate.
    + intros _. split; [reflexivity|].
      apply sublist_app; [apply filter_sublist|reflexivity].
    + intros Hone s. specialize (Hone s).
      rewrite pin_count_app in Hone |- *.
      pose proof (pin_count_filter_le s
                    (fun r => negb (forced None (Some (source request)) r)) l1).
      lia.
Qed.

(** The loop of [getActiveRequest] started with a request in hand keeps
    it unless a request for state 0 comes. *)
Lemma active_loop_some reqs a :
  (forall r, In r reqs -> state r <> 0) -> active_loop reqs (Some a) = Some a.
Proof.
  induction reqs as [|r reqs IH]; intros Hn; cbn; [reflexivity|].
  destruct (Z.eqb_spec (state r) 0) as [H0|_].
  - destruct (Hn r (or_introl eq_refl) H0).
  - apply IH. intros r' Hr'. apply Hn. right. exact Hr'.
Qed.

(** Over boost requests the loop returns the first. *)
Lemma active_loop_boost reqs :
  Forall (fun r => state r = 2) reqs -> active_loop reqs None = head reqs.
Proof.
  intros Hall. destruct reqs as [|r rs]; [reflexivity|].
  apply Forall_cons in Hall as [Hr Hall]. cbn. rewrite Hr. cbn.
  apply active_loop_some. intros r' Hr' H0.
  pose proof (proj1 (List.Forall_forall _ _) Hall r' Hr') as H2. cbn beta in H2. lia.
Qed.

Lemma all_boost_true reqs :
  Forall (fun r => state r = 2) reqs ->
  forallb (fun r => state r =? 2) reqs = true.
Proof.
  intros Hall. apply forallb_forall. intros r Hr. apply Z.eqb_eq.
  exact (proj1 (List.Forall_forall _ _) Hall r Hr).
Qed.

Lemma all_boost_false reqs :
  (exists r, In r reqs /\ state r <> 2) ->
  forallb (fun r => state r =? 2) reqs = false.
Proof.
  intros (r & Hr & Hs). apply not_true_is_false. intros Hall.
  apply Hs, Z.eqb_eq. exact (proj1 (forallb_forall _ _) Hall r Hr).
Qed.

(** X13: what [getActiveRequest] returns.  It returns only for a pin all
    of whose requests are boost requests (state 2), and then it returns
    the first request of the list, the one added earliest, or nothing for
    an empty list; as soon as the list holds a request for state 0 or 1 it
    throws a ReferenceError.  In both cases no request is removed and
    nothing is logged. *)
Theorem getActiveRequest_boost_only self out :
  getActiveRequest self out
  = (if forallb (fun r => state r =? 2) (requests self)
     then Normal (head (requests self))
     else Throw ReferenceError,
     self, out).
Proof.
  unfold getActiveRequest.
  destruct (pin_purge_no_arguments self out) as [(Hall & Heq)|(Hex & Heq)];
    rewrite Heq.
  - rewrite (all_boost_true _ Hall), (active_loop_boost _ Hall). reflexivity.
  - rewrite (all_boost_false _ Hex). reflexivity.
Qed.

(** X29: what [getSerialisableState] reports for a pin.  It starts with a
    purge without arguments, so it returns only for a pin all of whose
    requests are boost requests; the report then holds the state read
    from the file and the first request of the list, if there is one.
    With a request for state 0 or 1 in the list it throws a
    ReferenceError.  In both cases no request is removed. *)
Theorem pin_getSerialisableState_outcome cur_state self out :
  getSerialisableState cur_state self out
  = (if forallb (fun r => state r =? 2) (requests self)
     then Normal {| reported_state := cur_state;
                    reported_request := head (requests self) |}
     else Throw ReferenceError,
     self, out).
Proof.
  unfold getSerialisableState, getActiveRequest.
  destruct (pin_purge_no_arguments self out) as [(Hall & Heq)|(Hex & Heq)];
    rewrite Heq.
  - rewrite Heq, (all_boost_true _ Hall), (active_loop_boost _ Hall). reflexivity.
  - rewrite (all_boost_false _ Hex). reflexivity.
Qed.

End PinRequests.

(** ** Controller: plain transitions of setPromise *)

Section SetPromiseMore.

Import Controller.







(** ** Controller: resetValve *)

Lemma reset_next this fuel c tk :
  reset_settled tk = false ->
  reset_run this (S fuel) c tk
  = let '(c1, tk1, evs, out) := reset_step this c tk in
    let '(c2, tk2, evs', out') := reset_run this fuel c1 tk1 in
    (c2, tk2, evs ++ evs', out ++ out').
Proof. intros Hs. cbn [reset_run]. rewrite Hs. reflexivity. Qed.

Lemma reset_done this fuel c tk :
  reset_settled tk = true -> reset_run this fuel c tk = (c, tk, [], []).
Proof. intros Hs. destruct fuel; cbn [reset_run]; [|rewrite Hs]; reflexivity. Qed.

(** X17: [resetValve] switches HW on and goes no further.  Its first
    handler is a [function] that reads [this.valve_return] with [this]
    undefined, so after the write HW=1 the chain is rejected with a
    TypeError, which the [.catch] logs: the promise is fulfilled, CH is
    not written, and HW is not switched off again. *)
Theorem resetValve_leaves_HW_on c hw fuel :
  pin c !! "HW" = Some hw -> (4 <= fuel)%nat ->
  resetValve fuel c
  = (set_pin c "HW" 1, ResetFulfilled, [EvWrite "HW" 1],
     [ResetTrace "Resetting valve"; ResetTrace "Reset: HW(1) done";
      ResetFailed TypeError]).
Proof.
  intros Hhw Hfuel. unfold resetValve.
  replace fuel with (4 + (fuel - 4))%nat by lia.
  generalize (fuel - 4)%nat as k. intros k. cbn [Nat.add].
  rewrite reset_next by reflexivity. unfold reset_step, reset_set. rewrite Hhw.
  rewrite reset_next by reflexivity. unfold reset_step.
  rewrite reset_next by reflexivity.
  unfold reset_step, on_reset, handler_this, read_valve_return.
  rewrite reset_next by reflexivity. unfold reset_step.
  rewrite reset_done by reflexivity. reflexivity.
Qed.

(** With the controller as the receiver of the first handler the chain
    would run to its end: HW on, the wait, CH off, HW off. *)
Lemma resetValve_with_receiver c ch hw fuel :
  pin c !! "HW" = Some hw -> pin c !! "CH" = Some ch -> (9 <= fuel)%nat ->
  reset_run ThisController fuel c ResetCall
  = (set_pin (set_pin (set_pin c "HW" 1) "CH" 0) "HW" 0, ResetFulfilled,
     [EvWrite "HW" 1; EvTimer (valve_return c); EvWrite "CH" 0; EvWrite "HW" 0],
     [ResetTrace "Resetting valve"; ResetTrace "Reset: HW(1) done";
      ResetTrace "Reset: delay done"; ResetTrace "Reset: CH(0) done";
      ResetTrace "Valve reset"]).
Proof.
  intros Hhw Hch Hfuel.
  replace fuel with (9 + (fuel - 9))%nat by lia.
  generalize (fuel - 9)%nat as k. intros k. cbn [Nat.add].
  rewrite reset_next by reflexivity. unfold reset_step, reset_set. rewrite Hhw.
  rewrite reset_next by reflexivity. unfold reset_step.
  rewrite reset_next by reflexivity.
  unfold reset_step, on_reset, read_valve_return. cbn [valve_return set_pin].
  rewrite reset_next by reflexivity. unfold reset_step.
  rewrite reset_next by reflexivity. unfold reset_step, on_reset, reset_set.
  cbn [set_pin pin]. rewrite lookup_insert_ne by discriminate. rewrite Hch.
  rewrite reset_next by reflexivity. unfold reset_step.
  rewrite reset_next by reflexivity. unfold reset_step, on_reset, reset_set.
  cbn [set_pin pin]. rewrite lookup_insert_ne by discriminate.
  rewrite lookup_insert_eq.
  rewrite reset_next by reflexivity. unfold reset_step.
  rewrite reset_next by reflexivity. unfold reset_step, on_reset.
  rewrite reset_done by reflexivity. reflexivity.
Qed.

Lemma exec_app acts1 : forall acts2 s,
  exec (acts1 ++ acts2) s = exec acts2 (exec acts1 s).
Proof.
  induction acts1 as [|a acts1 IH]; intros acts2 s; cbn [exec app]; auto.
Qed.

(** No turn and no arrival brings a call in front of the handler that
    clears the flag. *)
Lemma exec_never_reaches_clearing acts : forall s,
  Forall (fun tk => clears_flag tk = false) (tasks s) ->
  Forall (fun tk => clears_flag tk = false) (tasks (exec acts s)).
Proof.
  induction acts as [|a acts IH]; intros s Hall; cbn [exec]; [exact Hall|].
  apply IH. destruct a as [j|ch ns]; cbn [act].
  - destruct (tasks s !! j) as [tk|] eqn:Hj; [|exact Hall].
    pose proof (proj1 (Forall_lookup _ _) Hall j tk Hj) as Htk. cbn beta in Htk.
    pose proof (step_keeps_flag (ctl s) tk Htk) as [Hnext _].
    destruct (step (ctl s) tk) as [[c1 tk1] evs]. cbn in *.
    apply Forall_insert; assumption.
  - cbn. apply Forall_app. split; [exact Hall|]. repeat constructor.
Qed.

(** X26: the flag [pending] is never reset.  The only handler that clears
    it comes after the one that waits for the spring, which throws; so
    from a state in which no call stands before that handler, for any
    interleaving of turns and of new calls, once the flag is set it stays
    set whatever happens next. *)
Theorem pending_stays_set acts1 acts2 s :
  Forall (fun tk => clears_flag tk = false) (tasks s) ->
  pending (ctl (exec acts1 s)) = true ->
  pending (ctl (exec (acts1 ++ acts2) s)) = true.
Proof.
  intros Hall Hp. rewrite exec_app.
  apply flag_never_cleared; [exact Hp|].
  apply exec_never_reaches_clearing, Hall.
Qed.

End SetPromiseMore.

(** ** Controller: the purge of a tick *)

Section PollPurge.

Import Controller.

Variable BOOST : Z.
Variable clk : Thermostat.clock.

Lemma purge_all_thermostats ths out :
  fst (purge_all BOOST clk ths out)
  = map (fun nt => (fst nt,
                    fst (Thermostat.purgeRequests BOOST clk None (snd nt) [])))
      ths.
Proof.
  revert out. induction ths as [|[n th] ths IH]; intros out; cbn; [reflexivity|].
  pose proof (purgeRequests_fst BOOST clk None th out) as H1.
  pose proof (purgeRequests_fst BOOST clk None th []) as H2.
  destruct (Thermostat.purgeRequests BOOST clk None th out) as [th1 out1].
  specialize (IH out1).
  destruct (purge_all BOOST clk ths out1) as [rest1 out2].
  cbn [fst snd] in *. rewrite H1, <- H2, IH. reflexivity.
Qed.

(** X18: every tick purges every thermostat, whatever becomes of the
    rules.  After [pollRules], however its loop over the rules ends, the
    thermostats are the same ones in the same order, each purged without
    criteria, so that none holds a request whose [until] is not the boost
    mark and has passed; the pins and the flag [pending] are as before. *)
Theorem pollRules_purges_thermostats c out :
  let tk := pollRules BOOST clk c out in
  thermostat (after tk)
  = map (fun nt => (fst nt,
                    fst (Thermostat.purgeRequests BOOST clk None (snd nt) [])))
      (thermostat c)
  /\ (forall n th r,
         In (n, th) (thermostat (after tk)) -> In r (Thermostat.requests th) ->
         Thermostat.until r <> BOOST ->
         Thermostat.nowSeconds clk <= Thermostat.until r)
  /\ pin (after tk) = pin c
  /\ pending (after tk) = pending c.
Proof.
  cbn zeta.
  assert (Hths : thermostat (after (pollRules BOOST clk c out))
                 = fst (purge_all BOOST clk (thermostat c) [])
                 /\ pin (after (pollRules BOOST clk c out)) = pin c
                 /\ pending (after (pollRules BOOST clk c out)) = pending c).
  { unfold pollRules.
    assert (Hc1 : forall c1, c1 = match poll_timer c with
                                  | Some _ => set_poll_timer c None
                                  | None => c
                                  end ->
                  thermostat c1 = thermostat c /\ pin c1 = pin c
                  /\ pending c1 = pending c)
      by (intros c1 ->; destruct (poll_timer c); auto).
    destruct (Hc1 _ eq_refl) as (Ht & Hpin & Hpend). rewrite Ht.
    destruct (purge_all BOOST clk (thermostat c) []) as [ths traced].
    destruct (rule_loop _ _ _ _) as [[[ | v | e] ps] out2]; cbn; auto. }
  destruct Hths as (Hths & Hpin & Hpend).
  rewrite purge_all_thermostats in Hths. repeat split; auto.
  intros n th r Hin Hr Hnb. rewrite Hths in Hin.
  apply in_map_iff in Hin as ([n0 th0] & Heq & _). cbn [fst snd] in Heq.
  injection Heq as _ <-.
  rewrite purgeRequests_requests in Hr. apply filter_In in Hr as [_ Hk].
  cbn [Thermostat.criteria] in Hk. apply kept_live in Hk as [(Hb & _)|[_ Hlive]];
    [contradiction|exact Hlive].
Qed.

End PollPurge.

(** ** Historian *)

Section HistorianFacts.

Import Historian.

(** The test for a skipped interval, on integers. *)
Lemma gap_exceeded_spec h time last_time last_sample i :
  last h = Some (last_time, last_sample) -> interval h = Some i ->
  gap_exceeded h time = true <-> 4 * last_time + 5 * i < 4 * time.
Proof.
  intros Hl Hi. unfold gap_exceeded. rewrite Hl, Hi.
  rewrite negb_true_iff, <- not_true_iff_false, Qle_bool_iff.
  unfold Qle, Qplus, Qmult, Qdiv, Qinv, inject_Z. cbn.
  change (Z.pos (1 * (1 * 1 * 4))) with 4. change (Z.pos (1 * 1 * 4)) with 4. lia.
Qed.

Lemma sorted_snoc file time sample :
  sorted_by_time file -> (forall l, In l file -> fst l < time) ->
  sorted_by_time (file ++ [(time, sample)]).
Proof.
  intros Hs Hlt i j a b Hij Ha Hb.
  assert (Hj : (j < length (file ++ [(time, sample)]))%nat)
    by (apply (lookup_lt_Some _ _ _ Hb)).
  rewrite length_app in Hj. cbn in Hj. unfold line in *.
  rewrite lookup_app_l in Ha by lia.
  destruct (decide (j < length file)%nat) as [Hjl|Hjl].
  - rewrite lookup_app_l in Hb by exact Hjl. exact (Hs i j a b Hij Ha Hb).
  - rewrite lookup_app_r in Hb by lia.
    replace (j - length file)%nat with 0%nat in Hb by lia.
    injection Hb as <-. cbn. apply Hlt.
    apply list_elem_of_In, (list_elem_of_lookup_2 _ i), Ha.
Qed.

(** One record at a later time keeps the file sorted. *)
Lemma record_tracks now sample time h file out i :
  interval h = Some i -> 0 < i -> tracks h file ->
  match last h with Some (last_time, _) => last_time < time | None => True end ->
  let '(p, h1, file1, out1) := record None None now sample (Some time) h file out in
  tracks h1 file1 /\ last h1 = Some (time, sample) /\ interval h1 = Some i.
Proof.
  intros Hi Hpos [Hsorted Hbound] Hlater. unfold record.
  destruct (last h) as [[last_time last_sample]|] eqn:Hlast.
  - unfold checkpoint. rewrite Hlast, Hi.
    destruct (gap_exceeded h time) eqn:Hgap.
    + apply (gap_exceeded_spec h time last_time last_sample i Hlast Hi) in Hgap.
      cbn [set_last last interval]. repeat split; auto.
      * apply sorted_snoc.
        -- apply sorted_snoc; [exact Hsorted|].
           intros l Hl. specialize (Hbound l Hl). lia.
        -- intros l Hl. apply in_app_or in Hl as [Hl|[<-|[]]].
           ++ specialize (Hbound l Hl). lia.
           ++ cbn. lia.
      * intros l Hl. apply in_app_or in Hl as [Hl|[<-|[]]]; [|cbn; lia].
        apply in_app_or in Hl as [Hl|[<-|[]]]; [|cbn; lia].
        specialize (Hbound l Hl). lia.
    + cbn [set_last last interval]. repeat split; auto.
      * apply sorted_snoc; [exact Hsorted|].
        intros l Hl. specialize (Hbound l Hl). lia.
      * intros l Hl. apply in_app_or in Hl as [Hl|[<-|[]]]; [|cbn; lia].
        specialize (Hbound l Hl). lia.
  - unfold checkpoint. rewrite Hlast. subst file.
    cbn [set_last last interval app]. repeat split; auto.
    + intros i0 j a b Hij Ha Hb.
      apply lookup_lt_Some in Hb. cbn in Hb. lia.
    + intros l [<-|[]]. cbn. lia.
Qed.

(** X19: records made at increasing times keep the history file sorted.
    For a historian with a positive interval whose file is sorted by time
    and holds no line later than the time it remembers, any sequence of
    calls of [record] at increasing later times, whose appends succeed,
    leaves the file sorted by time without repeated times, checkpoints
    included. *)
Theorem records_keep_file_sorted calls :
  forall h file i,
    interval h = Some i -> 0 < i -> tracks h file ->
    increasing (option_map fst (last h)) calls ->
    sorted_by_time (snd (records calls h file)).
Proof.
  induction calls as [|[sample time] calls IH]; intros h file i Hi Hpos Htr Hinc.
  - cbn. apply Htr.
  - cbn [records]. destruct Hinc as [Hfirst Hrest].
    pose proof (record_tracks time sample time h file [] i Hi Hpos Htr) as Hstep.
    destruct (record None None time sample (Some time) h file []) as [[[p h1] file1] out1].
    destruct Hstep as (Htr1 & Hlast1 & Hi1).
    { destruct (last h) as [[lt ls]|]; cbn in *; auto. }
    apply (IH h1 file1 i Hi1 Hpos Htr1). rewrite Hlast1. exact Hrest.
Qed.

(** X20: what can go wrong in [record].  Whatever the outcome of the two
    appends, the historian remembers the new time and sample.  The promise
    is rejected exactly when a checkpoint is due and its append fails, and
    then nothing is written or logged.  When the append of the sample
    itself fails, the promise is still fulfilled, the failure is logged,
    and the file holds at most the checkpoint more. *)
Theorem record_failures checkpoint_io sample_io now sample time h file out :
  let t := default now time in
  let '(p, h1, file1, out1) :=
    record checkpoint_io sample_io now sample time h file out in
  last h1 = Some (t, sample)
  /\ (forall e, p = Controller.Rejects e
                <-> checkpoint h t <> None /\ checkpoint_io = Some e)
  /\ (forall e, p = Controller.Rejects e -> file1 = file /\ out1 = out)
  /\ (forall e, p = Controller.Fulfils -> sample_io = Some e ->
        out1 = out ++ [LogAppendFailed e]
        /\ file1 = file ++ option_list (checkpoint h t)).
Proof.
  cbn zeta. unfold record. destruct time as [tm|]; cbn [default].
  all: destruct (checkpoint _ _) as [l|].
  all: destruct checkpoint_io as [e1|]; destruct sample_io as [e2|]; cbn.
  all: repeat split; try discriminate; try congruence; intros;
       repeat match goal with
              | H : _ /\ _ |- _ => destruct H
              | H : Some _ = Some _ |- _ => injection H as <-
              | H : Controller.Rejects _ = Controller.Rejects _ |- _ =>
                  injection H as <-
              end;
       try discriminate; try congruence; auto using app_nil_r.
Qed.

(** X21: a sample is never tried twice.  After a call of [record] for a
    sample, whatever its outcome, a poll that reads the same value writes
    and logs nothing: a sample whose append failed, or whose checkpoint
    failed, is lost until the value changes. *)
Theorem _poll_after_record checkpoint_io sample_io now sample time h file out :
  let '(p, h1, file1, out1) :=
    record checkpoint_io sample_io now sample time h file out in
  forall checkpoint_io' sample_io' now',
    let '(h2, file2, timers, out2) :=
      _poll checkpoint_io' sample_io' now' (Some sample) h1 file1 out1 in
    file2 = file1 /\ out2 = out1 /\ last h2 = last h1.
Proof.
  assert (Hsame : forall h0 tm, differs sample (set_last h0 (Some (tm, sample))) = false).
  { intros h0 tm. unfold differs. cbn. rewrite negb_false_iff.
    apply Qeq_bool_iff. reflexivity. }
  unfold record.
  destruct (checkpoint h _) as [l|]; destruct checkpoint_io as [e1|];
    destruct sample_io as [e2|]; cbn iota beta zeta.
  all: intros cio' sio' now'; unfold _poll; rewrite Hsame;
       destruct (timeout (set_last h _)); cbn; auto.
Qed.

(** X22: when the polling loop goes on.  [_poll] leaves the timer field
    and the interval as they are, and either arms one timeout, with the
    configured interval, or none.  It arms none exactly when the historian
    has been stopped, or when the value read is a number that differs from
    the last sample, a checkpoint is due and its append fails: the
    rejection is not handled and the loop ends, with the timer field still
    set. *)
Theorem _poll_rearms checkpoint_io sample_io now datum h file out :
  let '(h1, file1, timers, out1) :=
    _poll checkpoint_io sample_io now datum h file out in
  timeout h1 = timeout h /\ interval h1 = interval h
  /\ (timers = [SetTimeout (interval h)] \/ timers = [])
  /\ (timers = [] <->
      timeout h = false
      \/ exists d e l, datum = Some d /\ differs d h = true
                       /\ checkpoint h now = Some l /\ checkpoint_io = Some e).
Proof.
  unfold _poll, record. cbn zeta.
  destruct datum as [d|]; [destruct (differs d h) eqn:Hd|].
  1: destruct (checkpoint h now) as [l|] eqn:Hcp; destruct checkpoint_io as [e1|];
     destruct sample_io as [e2|].
  all: cbn [timeout set_last set_timeout interval];
       destruct (timeout h) eqn:Ht; cbn [timeout set_last set_timeout interval].
  all: repeat split; auto; try discriminate; try (intros; eauto 10; fail).
  all: try (intros [Hf|(d' & e' & l' & Hdat & Hdiff & Hc & Hio)];
            try discriminate; try congruence).
Qed.

Lemma _poll_rearms_aux checkpoint_io sample_io now datum h file out :
  let '(h1, file1, timers, out1) :=
    _poll checkpoint_io sample_io now datum h file out in
  timeout h1 = timeout h /\ (timeout h = false -> timers = []).
Proof.
  unfold _poll, record. cbn zeta.
  destruct datum as [d|]; [destruct (differs d h)|].
  1: destruct (checkpoint h now) as [l|]; destruct checkpoint_io as [e1|];
     destruct sample_io as [e2|].
  all: cbn [timeout set_last set_timeout interval];
       destruct (timeout h) eqn:Ht; cbn [timeout set_last set_timeout interval];
       split; auto; discriminate.
Qed.

(** X23: [stop] ends the polling.  After [stop] the timer field is clear,
    a second [stop] does nothing, and a poll already under way arms no
    further timeout, whatever it reads and whatever the appends do. *)
Theorem stop_ends_polling h out :
  let '(h1, timers, out1) := stop h out in
  timeout h1 = false
  /\ stop h1 out1 = (h1, [], out1)
  /\ forall checkpoint_io sample_io now datum file out',
       let '(h2, file2, timers2, out2) :=
         _poll checkpoint_io sample_io now datum h1 file out' in
       timers2 = [] /\ timeout h2 = false.
Proof.
  assert (Hoff : forall h0, timeout h0 = false ->
            forall cio sio now datum file out',
              let '(h2, file2, timers2, out2) :=
                _poll cio sio now datum h0 file out' in
              timers2 = [] /\ timeout h2 = false).
  { intros h0 H0 cio sio now datum file out'.
    pose proof (_poll_rearms_aux cio sio now datum h0 file out') as Hp.
    destruct (_poll cio sio now datum h0 file out') as [[[h2 file2] timers2] out2].
    destruct Hp as (Hsame & Hiff). split; [apply Hiff; auto|congruence]. }
  unfold stop. destruct (timeout h) eqn:Ht.
  - cbn [timeout set_timeout]. repeat split; auto. apply Hoff. reflexivity.
  - rewrite Ht. repeat split; auto. apply Hoff, Ht.
Qed.

(** X24: [start] needs a function and an interval.  It throws unless the
    sampler is a function and the interval is configured; when it throws
    no timeout is armed and the timer field is untouched, though a
    function passed without an interval is still kept as the sampler.
    Otherwise one timeout of 100 ms is armed and the timer field is set. *)
Theorem start_arms_or_throws is_function h :
  let '(r, h1, timers) := start is_function h in
  (r = Normal tt <-> is_function = true /\ interval h <> None)
  /\ (r = Normal tt -> timers = [SetTimeout (Some 100)] /\ timeout h1 = true)
  /\ (r <> Normal tt -> timers = [] /\ timeout h1 = timeout h
                        /\ sampler h1 = (is_function || sampler h)).
Proof.
  unfold start. destruct is_function; cbn [negb].
  - cbn [interval set_sampler]. destruct (interval h) eqn:Hi.
    + repeat split; auto; try discriminate; congruence.
    + repeat split; auto; try discriminate; try congruence.
      intros [_ H]; congruence.
  - repeat split; auto; try discriminate; try congruence.
    intros [H _]; discriminate.
Qed.

Lemma history_loop_cells since basetime report : forall res,
  history_loop since basetime report res
  = res ++ flat_map (fun l => [inject_Z (fst l - basetime); snd l])
             (List.filter (fun l => wanted since (fst l)) report).
Proof.
  induction report as [|[time sample] rest IH]; intros res; cbn [history_loop].
  - cbn. rewrite app_nil_r. reflexivity.
  - rewrite IH. cbn [List.filter fst]. destruct (wanted since time); cbn.
    + rewrite <- app_assoc. reflexivity.
    + reflexivity.
Qed.

(** X25: the serialised history.  The array starts with the base time,
    which is the time of the first line of the report even when [since]
    leaves that line out, and the current time for an empty report; after
    it come two cells for each line at or after [since], in the order of
    the report: the line's time less the base time, and its sample. *)
Theorem getSerialisableHistory_cells since now report :
  let basetime := match report with (time, _) :: _ => time | [] => now end in
  getSerialisableHistory since now report
  = inject_Z basetime
    :: flat_map (fun l => [inject_Z (fst l - basetime); snd l])
         (List.filter (fun l => wanted since (fst l)) report).
Proof.
  cbn zeta. unfold getSerialisableHistory. cbn zeta.
  rewrite history_loop_cells. reflexivity.
Qed.

End HistorianFacts.
(** ** Instances *)

(** X4, an instance: a boost to 45 added to a thermostat at 20 whose
    timeline tops at 50 is the target at once. *)
Lemma addRequest_boost_wins_witness :
  fst (fst (Thermostat.getTargetTemperature Scenario.boost_mark Scenario.clk0
              (fst (Thermostat.addRequest Scenario.boost_mark Scenario.clk0
                      "mobile" 45%Q Scenario.boost_mark
                      (Scenario.thermostat_of Scenario.timeline0 [Scenario.req_live])
                      []))
              []))
  = Normal 45%Q.
Proof.
  apply (addRequest_boost_wins Scenario.boost_mark Scenario.clk0 Scenario.clk0
           "mobile" 45%Q
           (Scenario.thermostat_of Scenario.timeline0 [Scenario.req_live]) [] []).
  - unfold Qle. cbn. lia.
  - unfold Qle. cbn. lia.
Defined.

(** X5, an instance: source "A" replaces its boost by a request for 19
    until 5000, which then wins over the older request of "browser". *)
Lemma addRequest_last_wins_witness :
  fst (fst (Thermostat.getTargetTemperature Scenario.boost_mark Scenario.clk0
              (fst (Thermostat.addRequest Scenario.boost_mark Scenario.clk0
                      "A" 19%Q 5000
                      (Scenario.thermostat_of Scenario.timeline0
                         [Scenario.req_boost; Scenario.req_live])
                      []))
              []))
  = Normal 19%Q.
Proof.
  apply (addRequest_last_wins Scenario.boost_mark Scenario.clk0 Scenario.clk0
           "A" 19%Q 5000
           (Scenario.thermostat_of Scenario.timeline0
              [Scenario.req_boost; Scenario.req_live]) [] []).
  - discriminate.
  - cbn. lia.
  - intros r [<-|[<-|[]]] Hb.
    + right. right. split; [discriminate|reflexivity].
    + discriminate.
Defined.

(** X10, an instance: of the readings 21, a failure, 22 with an interrupt,
    and 30, the thermostat keeps 22. *)
Lemma polls_temperature_witness :
  Qeq
    (Thermostat.temperature
       (Thermostat.thermo
          (fst (Thermostat.polls Scenario.readings0 Scenario.poller0 []))))
    22%Q
  /\ Thermostat.interrupted
       (fst (Thermostat.polls Scenario.readings0 Scenario.poller0 [])) = false.
Proof.
  destruct (polls_temperature Scenario.readings0 Scenario.poller0 [] eq_refl)
    as (Htemp & _ & Hint).
  split; [rewrite Htemp; reflexivity|exact Hint].
Defined.




(** X17, an instance: the reset of a controller with CH on and HW off. *)
Lemma resetValve_leaves_HW_on_witness :
  Controller.resetValve 4 (Scenario.controller_of 1 0 false [])
  = (Controller.set_pin (Scenario.controller_of 1 0 false []) "HW" 1,
     Controller.ResetFulfilled, [Controller.EvWrite "HW" 1],
     [Controller.ResetTrace "Resetting valve";
      Controller.ResetTrace "Reset: HW(1) done";
      Controller.ResetFailed TypeError]).
Proof.
  apply (resetValve_leaves_HW_on (Scenario.controller_of 1 0 false []) 0 4);
    [reflexivity|lia].
Defined.

(** X19, an instance: three records, the last after a gap, from an empty
    file. *)
Lemma records_keep_file_sorted_witness :
  Historian.sorted_by_time
    (snd (Historian.records Scenario.samples0 Scenario.historian0 [])).
Proof.
  apply (records_keep_file_sorted Scenario.samples0 Scenario.historian0 [] 300).
  - reflexivity.
  - lia.
  - split; [|reflexivity]. intros i j a b _ Ha. discriminate Ha.
  - cbn. lia.
Defined.

(** X26, an instance: in the race of two calls the flag is set after the
    first has waited for the spring, and a third call and further turns
    leave it set. *)
Lemma pending_stays_set_witness :
  Controller.pending
    (Controller.ctl
       (Controller.exec
          ((Scenario.race ++ [Controller.Turn 0; Controller.Turn 0;
                              Controller.Turn 0; Controller.Turn 0])
           ++ [Controller.Turn 1; Controller.Arrive "HW" 0; Controller.Turn 2;
               Controller.Turn 1; Controller.Turn 0; Controller.Turn 2])
          Scenario.idle))
  = true.
Proof.
  apply (pending_stays_set
           (Scenario.race ++ [Controller.Turn 0; Controller.Turn 0;
                              Controller.Turn 0; Controller.Turn 0])
           [Controller.Turn 1; Controller.Arrive "HW" 0; Controller.Turn 2;
            Controller.Turn 1; Controller.Turn 0; Controller.Turn 2]
           Scenario.idle).
  - constructor.
  - reflexivity.
Defined.

(** X27, an instance: the rule for CH throws after the rule for HW has
    been called; the exception leaves [pollRules] and no timer is armed. *)
Lemma pollRules_propagates_throw_witness :
  let tk :=
    Controller.pollRules Scenario.boost_mark Scenario.clk0
      (Scenario.controller_of 1 0 false
         [("HW", Scenario.rule_ok "HW"); ("CH", Scenario.rule_throwing "CH")])
      [] in
  Controller.completed tk = Throw TypeError
  /\ map fst (Controller.called tk) = ["HW"]
  /\ Controller.poll_timer (Controller.after tk) = None.
Proof.
  apply (pollRules_propagates_throw Scenario.boost_mark Scenario.clk0
           (Scenario.controller_of 1 0 false
              [("HW", Scenario.rule_ok "HW"); ("CH", Scenario.rule_throwing "CH")])
           [] [("HW", Scenario.rule_ok "HW")] "CH" (Scenario.rule_throwing "CH") []
           (fun _ _ => Throw TypeError) TypeError eq_refl).
  - repeat constructor. exists (fun _ _ => Normal Controller.Fulfils).
    split; [reflexivity|]. intros ths pins. eexists. reflexivity.
  - reflexivity.
  - reflexivity.
Defined.

(** X28, an instance: the promise of the rule for HW is rejected; the rule
    for CH is still called and the timer is armed again. *)
Lemma pollRules_isolates_rejections_witness :
  let tk :=
    Controller.pollRules Scenario.boost_mark Scenario.clk0
      (Scenario.controller_of 1 0 false
         [("HW", Scenario.rule_rejecting "HW"); ("CH", Scenario.rule_ok "CH")])
      [] in
  map fst (Controller.called tk) = ["HW"; "CH"]
  /\ Controller.poll_timer (Controller.after tk) = Some 5000.
Proof.
  destruct (pollRules_isolates_rejections Scenario.boost_mark Scenario.clk0
              (Scenario.controller_of 1 0 false
                 [("HW", Scenario.rule_rejecting "HW"); ("CH", Scenario.rule_ok "CH")])
              [])
    as (_ & Hcalled & Htimer & _).
  - repeat constructor.
    + exists (fun _ _ => Normal (Controller.Rejects (Error "rule"))).
      split; [reflexivity|]. intros ths pins. eexists. reflexivity.
    + exists (fun _ _ => Normal Controller.Fulfils).
      split; [reflexivity|]. intros ths pins. eexists. reflexivity.
  - cbn zeta. split; [exact Hcalled|exact Htimer].
Defined.
